(** * vafast-swagger: the documentation middleware of src/index.ts

    A shallow embedding of [renderSwaggerUI], [renderScalar],
    [createOpenAPISpec] and [swagger], together with the parts of the
    JavaScript platform they call: [JSON.stringify], [JSON.parse],
    [new URL(..).pathname], template-literal concatenation, [Array.join],
    [String.includes] and [Promise.resolve]. *)

From Stdlib Require Import String Ascii List ZArith Bool Lia.
From Stdlib Require Import DecimalString DecimalPos DecimalZ.
Import ListNotations.
Open Scope string_scope.

(** ** Outcomes of evaluating JavaScript code *)

(** A thrown JavaScript exception: its constructor name and its message. *)
Record exn := Exn { exn_name : string; exn_message : string }.

Definition TypeError (msg : string) : exn := Exn "TypeError" msg.

(** [Done a]: normal completion; [Throw e]: abrupt completion by an exception;
    [Stuck]: the model has no answer (fuel exhausted, or a reference that
    does not point at an object or array of the heap). *)
Inductive outcome (A : Type) : Type :=
| Done (a : A)
| Throw (e : exn)
| Stuck.

Arguments Done {A} a.
Arguments Throw {A} e.
Arguments Stuck {A}.

Definition bind {A B : Type} (m : outcome A) (k : A -> outcome B) : outcome B :=
  match m with
  | Done a => k a
  | Throw e => Throw e
  | Stuck => Stuck
  end.

Notation "'let*' x ':=' m 'in' k" := (bind m (fun x => k))
  (at level 10, x name, m at level 100, k at level 200).

(** ** Strings *)

Module Str.

(** The double-quote character (code 34). *)
Definition dq : ascii := ascii_of_nat 34.

(** The text of a template literal.  In the literals of this file a
    backtick stands for the double-quote character, which the templates of
    src/index.ts use in their HTML attributes; the templates contain no
    backtick of their own. *)
Fixpoint tpl (s : string) : string :=
  match s with
  | EmptyString => EmptyString
  | String c r => String (if Ascii.eqb c "`"%char then dq else c) (tpl r)
  end.

(** [Array.prototype.join] on an array of strings. *)
Definition join (sep : string) (xs : list string) : string :=
  String.concat sep xs.

(** [String.prototype.includes]. *)
Fixpoint includes (needle hay : string) : bool :=
  String.prefix needle hay
  || match hay with
     | EmptyString => false
     | String _ r => includes needle r
     end.

(** [s || d] on strings: the empty string is falsy. *)
Definition or_else (s d : string) : string :=
  match s with
  | EmptyString => d
  | _ => s
  end.

(** [o || d] where [o] is a string or undefined. *)
Definition opt_or_else (o : option string) (d : string) : string :=
  match o with
  | Some s => or_else s d
  | None => d
  end.

End Str.

(** ** JavaScript values *)

Module JS.

(** A heap location. *)
Definition loc := nat.

(** Numbers: the integral ones and the three that are not finite.
    Fractional doubles are outside the model. *)
Inductive number :=
| NaN
| PosInfinity
| NegInfinity
| Int (z : Z).

(** Plain data as configuration objects hold it.  [VObject] and [VArray] are
    an object or array owned by its parent (an object or array literal that
    nothing else refers to); [VRef] refers to an object or array in the heap,
    which may be shared and may be part of a cycle.  An object is the list of
    its own enumerable string-keyed properties in enumeration order.
    Functions are opaque; no object has a [toJSON] method or a getter. *)
Unset Elimination Schemes.
Inductive value :=
| VUndefined
| VNull
| VBoolean (b : bool)
| VNumber (n : number)
| VBigInt (z : Z)
| VString (s : string)
| VFunction
| VObject (props : list (string * value))
| VArray (elems : list value)
| VRef (l : loc).
Set Elimination Schemes.

(** The heap: cell [l] holds the object or array that [VRef l] refers to. *)
Definition heap := list value.

(** [ToBoolean]. *)
Definition ToBoolean (v : value) : bool :=
  match v with
  | VUndefined | VNull => false
  | VBoolean b => b
  | VNumber NaN => false
  | VNumber (Int z) => negb (Z.eqb z 0)
  | VNumber _ => true
  | VBigInt z => negb (Z.eqb z 0)
  | VString s => negb (String.eqb s EmptyString)
  | VFunction | VObject _ | VArray _ | VRef _ => true
  end.

(** [o || d] where [o] is a property that may be absent. *)
Definition or_default (o : option value) (d : value) : value :=
  match o with
  | Some v => if ToBoolean v then v else d
  | None => d
  end.

(** [Number::toString] on an integral number. *)
Definition Z_to_string (z : Z) : string :=
  NilZero.string_of_int (Z.to_int z).

Definition hex_digit (n : nat) : ascii :=
  if Nat.ltb n 10 then ascii_of_nat (48 + n) else ascii_of_nat (87 + n).

(** [QuoteJSONString], one code unit at a time. *)
Definition quote_char (c : ascii) : string :=
  let n := nat_of_ascii c in
  if Nat.eqb n 8 then "\b"
  else if Nat.eqb n 9 then "\t"
  else if Nat.eqb n 10 then "\n"
  else if Nat.eqb n 12 then "\f"
  else if Nat.eqb n 13 then "\r"
  else if Nat.eqb n 34 then String "\"%char (String Str.dq EmptyString)
  else if Nat.eqb n 92 then "\\"
  else if Nat.ltb n 32 then
    "\u00" ++ String (hex_digit (n / 16)) (String (hex_digit (n mod 16)) EmptyString)
  else String c EmptyString.

Fixpoint quote_chars (s : string) : string :=
  match s with
  | EmptyString => EmptyString
  | String c r => quote_char c ++ quote_chars r
  end.

Definition QuoteJSONString (s : string) : string :=
  String Str.dq (quote_chars s ++ String Str.dq EmptyString).

Definition cyclic_error : exn :=
  TypeError "Converting circular structure to JSON".

Definition bigint_error : exn :=
  TypeError "Do not know how to serialize a BigInt".

Section Serialize.

(** What to do at a reference: the caller checks the stack and reads
    the heap. *)
Variable at_ref : list loc -> loc -> outcome (option string).

(** [SerializeJSONProperty] with [SerializeJSONObject] and
    [SerializeJSONArray], without replacer and gap.  [None] is the
    undefined result. *)
Fixpoint ser_value (stack : list loc) (v : value) : outcome (option string) :=
  match v with
  | VUndefined | VFunction => Done None
  | VNull => Done (Some "null")
  | VBoolean true => Done (Some "true")
  | VBoolean false => Done (Some "false")
  | VNumber (Int z) => Done (Some (Z_to_string z))
  | VNumber _ => Done (Some "null")
  | VBigInt _ => Throw bigint_error
  | VString s => Done (Some (QuoteJSONString s))
  | VObject props =>
      let* partial :=
        (fix members (ps : list (string * value)) : outcome (list string) :=
           match ps with
           | [] => Done []
           | (k, x) :: ps' =>
               let* strP := ser_value stack x in
               let* rest := members ps' in
               Done match strP with
                    | Some str => (QuoteJSONString k ++ ":" ++ str) :: rest
                    | None => rest
                    end
           end) props in
      Done (Some ("{" ++ Str.join "," partial ++ "}"))
  | VArray elems =>
      let* partial :=
        (fix elements (es : list value) : outcome (list string) :=
           match es with
           | [] => Done []
           | x :: es' =>
               let* strP := ser_value stack x in
               let* rest := elements es' in
               Done (match strP with
                     | Some str => str
                     | None => "null"
                     end :: rest)
           end) elems in
      Done (Some ("[" ++ Str.join "," partial ++ "]"))
  | VRef l => at_ref stack l
  end.

End Serialize.

(** Serialisation through the heap.  A reference whose target is on the
    stack of objects being serialised is a cycle; otherwise the target is
    pushed and serialised.  One unit of fuel is spent per reference
    followed. *)
Fixpoint ser_fuel (fuel : nat) (h : heap) (stack : list loc) (v : value)
  : outcome (option string) :=
  match fuel with
  | O => Stuck
  | S fuel' =>
      ser_value
        (fun stack' l =>
           if existsb (Nat.eqb l) stack' then Throw cyclic_error
           else match nth_error h l with
                | Some (VObject props) => ser_fuel fuel' h (l :: stack') (VObject props)
                | Some (VArray elems) => ser_fuel fuel' h (l :: stack') (VArray elems)
                | _ => Stuck
                end)
        stack v
  end.

(** [JSON.stringify(v)]: no path through the heap follows more references
    than the heap has cells without meeting a cycle. *)
Definition JSON_stringify (h : heap) (v : value) : outcome (option string) :=
  ser_fuel (S (length h)) h [] v.

(** A template literal's [${..}] around a string or undefined. *)
Definition interpolate (s : option string) : string :=
  match s with
  | Some str => str
  | None => "undefined"
  end.

End JS.

(** ** The platform: URLs, responses, promises *)

Module URL.

(** The text after the first colon, which ends the scheme. *)
Fixpoint after_scheme (href : string) : option string :=
  match href with
  | EmptyString => None
  | String c r => if Ascii.eqb c ":"%char then Some r else after_scheme r
  end.

(** Skips the authority: up to the first slash, question mark or hash. *)
Fixpoint skip_authority (s : string) : string :=
  match s with
  | EmptyString => EmptyString
  | String c r =>
      if Ascii.eqb c "/"%char || Ascii.eqb c "?"%char || Ascii.eqb c "#"%char
      then s else skip_authority r
  end.

(** The path: up to the query or the fragment. *)
Fixpoint take_path (s : string) : string :=
  match s with
  | EmptyString => EmptyString
  | String c r =>
      if Ascii.eqb c "?"%char || Ascii.eqb c "#"%char
      then EmptyString else String c (take_path r)
  end.

(** [new URL(href).pathname] where [href] is the [url] of a [Request]: the
    serialisation of a URL that was parsed already, so that parsing it again
    only splits it.  A text without a scheme is not a URL. *)
Definition pathname (href : string) : outcome string :=
  match after_scheme href with
  | None => Throw (TypeError "Invalid URL")
  | Some (String "/" (String "/" r)) => Done (take_path (skip_authority r))
  | Some r => Done (take_path r)
  end.

End URL.

Record Request := { method : string; url : string }.

Record Response := {
  status : Z;
  content_type : string;
  body : string
}.

(** A settled promise. *)
Inductive Promise (A : Type) : Type :=
| Fulfilled (a : A)
| Rejected (reason : exn).

Arguments Fulfilled {A} a.
Arguments Rejected {A} reason.

(** [Promise.resolve(x)] on a value that is not a promise. *)
Definition Promise_resolve {A : Type} (a : A) : Promise A := Fulfilled a.

(** Modelled from the spec: the [html] response helper of the vafast
    framework, which src/index.ts imports as [htmlResponse] and which is not
    part of this repository: a response of status 200 and content-type
    text/html around the given text. *)
Definition htmlResponse (content : string) : Response :=
  {| status := 200; content_type := "text/html"; body := content |}.

(** Modelled from the spec: the [json] response helper of the vafast
    framework, not part of this repository: a response of status 200 and
    content-type application/json whose body is the JSON text of the given
    value. *)
Definition json (h : JS.heap) (data : JS.value) : outcome Response :=
  let* text := JS.JSON_stringify h data in
  Done {| status := 200;
          content_type := "application/json";
          body := match text with Some s => s | None => EmptyString end |}.

(** The state of everything outside the middleware, which only the rest of
    the pipeline reads and writes. *)
Definition Handler (World : Type) : Type :=
  World -> outcome (Promise Response) * World.

(** ** OpenAPI types *)

Module OpenAPIInfo.
Record t := Build {
  title : option string;
  description : option string;
  version : option string
}.
(** The object literal [{}]. *)
Definition empty : t := Build None None None.
End OpenAPIInfo.

(** [tags], [components] and [paths] are objects that the code hands on
    without looking inside. *)
Module OpenAPIDocumentation.
Record t := Build {
  info : option OpenAPIInfo.t;
  tags : option JS.value;
  components : option JS.value;
  paths : option JS.value
}.
Definition empty : t := Build None None None None.
End OpenAPIDocumentation.

Inductive Provider := scalar | swagger_ui.

Inductive Theme :=
| ThemeUrl (href : string)
| ThemePair (light dark : string).

Inductive ExcludeItem :=
| ExString (s : string)
| ExRegExp (source : string).

Inductive Exclude :=
| ExcludeOne (e : ExcludeItem)
| ExcludeMany (es : list ExcludeItem).

Module Config.
Record t := Build {
  provider : option Provider;
  scalarVersion : option string;
  scalarCDN : option string;
  scalarConfig : option JS.value;
  documentation : option OpenAPIDocumentation.t;
  version : option string;
  excludeStaticFile : option bool;
  path : option string;
  specPath : option string;
  exclude : option Exclude;
  swaggerOptions : option JS.value;
  theme : option Theme;
  autoDarkMode : option bool;
  excludeMethods : option (list string);
  excludeTags : option (list string)
}.
(** [swagger()] and [swagger({})]. *)
Definition empty : t :=
  Build None None None None None None None None None None None None None None None.
End Config.

(** ** Helpers of the platform used by the renderers *)

Fixpoint map_outcome {A B : Type} (f : A -> outcome B) (xs : list A)
  : outcome (list B) :=
  match xs with
  | [] => Done []
  | x :: xs' =>
      let* y := f x in
      let* ys := map_outcome f xs' in
      Done (y :: ys)
  end.

Fixpoint indexed (i : nat) (es : list JS.value) : list (string * JS.value) :=
  match es with
  | [] => []
  | x :: es' => (JS.Z_to_string (Z.of_nat i), x) :: indexed (S i) es'
  end.

Fixpoint code_units (s : string) : list JS.value :=
  match s with
  | EmptyString => []
  | String c r => JS.VString (String c EmptyString) :: code_units r
  end.

(** [Object.entries(v)]. *)
Definition Object_entries (h : JS.heap) (v : JS.value)
  : outcome (list (string * JS.value)) :=
  match v with
  | JS.VUndefined | JS.VNull =>
      Throw (TypeError "Cannot convert undefined or null to object")
  | JS.VObject props => Done props
  | JS.VArray elems => Done (indexed 0 elems)
  | JS.VString s => Done (indexed 0 (code_units s))
  | JS.VRef l =>
      match nth_error h l with
      | Some (JS.VObject props) => Done props
      | Some (JS.VArray elems) => Done (indexed 0 elems)
      | _ => Stuck
      end
  | _ => Done []
  end.

(** ** src/index.ts *)

(** The dark-mode rule that [renderSwaggerUI] adds to its style sheet. *)
Definition dark_mode_css : string :=
"
        @media (prefers-color-scheme: dark) {
            body { background: #1a1a1a; }
        }
        ".

Definition renderSwaggerUI (h : JS.heap) (info : OpenAPIInfo.t) (version : string)
    (theme : Theme) (swaggerOptions : JS.value) (autoDarkMode : bool)
  : outcome string :=
  let title := Str.opt_or_else (OpenAPIInfo.title info) "API Documentation" in
  let description := Str.opt_or_else (OpenAPIInfo.description info) "API documentation" in
  let apiVersion := Str.opt_or_else (OpenAPIInfo.version info) "1.0.0" in
  let* entries := Object_entries h swaggerOptions in
  let* options :=
    map_outcome
      (fun kv : string * JS.value =>
         let (key, value) := kv in
         let* text := JS.JSON_stringify h value in
         Done (key ++ ": " ++ JS.interpolate text))
      entries in
  Done (Str.tpl "<!DOCTYPE html>
<html lang=`en`>
<head>
    <meta charset=`UTF-8`>
    <meta name=`viewport` content=`width=device-width, initial-scale=1.0`>
    <title>" ++ title ++ Str.tpl "</title>
    <link rel=`stylesheet` type=`text/css` href=`https://unpkg.com/swagger-ui-dist@" ++ version ++ Str.tpl "/swagger-ui.css` />
    <style>
        html { box-sizing: border-box; overflow: -moz-scrollbars-vertical; overflow-y: scroll; }
        *, *:before, *:after { box-sizing: inherit; }
        body { margin:0; background: #fafafa; }
        " ++ (if autoDarkMode then dark_mode_css else EmptyString) ++ Str.tpl "
    </style>
</head>
<body>
    <div id=`swagger-ui`></div>
    <script src=`https://unpkg.com/swagger-ui-dist@" ++ version ++ Str.tpl "/swagger-ui-bundle.js`></script>
    <script src=`https://unpkg.com/swagger-ui-dist@" ++ version ++ Str.tpl "/swagger-ui-standalone-preset.js`></script>
    <script>
        window.onload = function() {
            const ui = SwaggerUIBundle({
                url: './json',
                dom_id: '#swagger-ui',
                deepLinking: true,
                presets: [SwaggerUIBundle.presets.apis, SwaggerUIStandalone.presets.standalone],
                plugins: [SwaggerUIBundle.plugins.DownloadUrl],
                layout: `StandaloneLayout`,
                " ++ Str.join ",
                " options ++ Str.tpl "
            });
        };
    </script>
</body>
</html>").

Definition renderScalar (h : JS.heap) (info : OpenAPIInfo.t) (version : string)
    (config : JS.value) (cdn : string)
  : outcome string :=
  let title := Str.opt_or_else (OpenAPIInfo.title info) "API Documentation" in
  let description := Str.opt_or_else (OpenAPIInfo.description info) "API documentation" in
  let* configuration := JS.JSON_stringify h config in
  Done (Str.tpl "<!DOCTYPE html>
<html lang=`en`>
<head>
    <meta charset=`UTF-8`>
    <meta name=`viewport` content=`width=device-width, initial-scale=1.0`>
    <title>" ++ title ++ Str.tpl "</title>
    <style>
        body { margin: 0; font-family: -apple-system, BlinkMacSystemFont, 'Segoe UI', Roboto, sans-serif; }
        #api-reference { min-height: 100vh; }
    </style>
</head>
<body>
    <div id=`api-reference` data-url=`./json` data-configuration='" ++ JS.interpolate configuration ++ Str.tpl "'></div>
    <script src=`" ++ Str.or_else cdn
        ("https://cdn.jsdelivr.net/npm/@scalar/api-reference@" ++ version
           ++ "/dist/browser/standalone.min.js") ++ Str.tpl "` crossorigin></script>
</body>
</html>").

(** The object that [createOpenAPISpec] builds. *)
Module OpenAPISpec.
Record info_t := BuildInfo {
  title : string;
  description : string;
  version : string
}.
Record t := Build {
  openapi : string;
  info : info_t;
  paths : JS.value;
  components : JS.value;
  tags : JS.value
}.
(** The object as a JavaScript value, its properties in the order of the
    object literal. *)
Definition to_value (s : t) : JS.value :=
  JS.VObject
    [ ("openapi", JS.VString (openapi s));
      ("info", JS.VObject
                 [ ("title", JS.VString (title (info s)));
                   ("description", JS.VString (description (info s)));
                   ("version", JS.VString (version (info s))) ]);
      ("paths", paths s);
      ("components", components s);
      ("tags", tags s) ].
End OpenAPISpec.

(** [o?.f] on an optional record. *)
Definition opt_chain {A B : Type} (o : option A) (f : A -> option B) : option B :=
  match o with
  | Some a => f a
  | None => None
  end.

Definition createOpenAPISpec (documentation : OpenAPIDocumentation.t) : OpenAPISpec.t :=
  {| OpenAPISpec.openapi := "3.0.3";
     OpenAPISpec.info :=
       {| OpenAPISpec.title :=
            Str.opt_or_else
              (opt_chain (OpenAPIDocumentation.info documentation) OpenAPIInfo.title)
              "Vafast API";
          OpenAPISpec.description :=
            Str.opt_or_else
              (opt_chain (OpenAPIDocumentation.info documentation) OpenAPIInfo.description)
              "API documentation";
          OpenAPISpec.version :=
            Str.opt_or_else
              (opt_chain (OpenAPIDocumentation.info documentation) OpenAPIInfo.version)
              "1.0.0" |};
     OpenAPISpec.paths :=
       JS.or_default (OpenAPIDocumentation.paths documentation) (JS.VObject []);
     OpenAPISpec.components :=
       JS.or_default (OpenAPIDocumentation.components documentation) (JS.VObject []);
     OpenAPISpec.tags :=
       JS.or_default (OpenAPIDocumentation.tags documentation) (JS.VArray []) |}.

(** A destructuring default: it applies to an absent property. *)
Definition default {A : Type} (d : A) (o : option A) : A :=
  match o with
  | Some a => a
  | None => d
  end.

(** [swagger(cfg)] is the middleware: a function of the request and of the
    continuation [next].  [h] is the heap that the objects of [cfg] live in;
    the middleware only reads it. *)
Definition swagger {World : Type} (h : JS.heap) (cfg : Config.t)
  : Request -> Handler World -> Handler World :=
  let provider := default scalar (Config.provider cfg) in
  let scalarVersion := default "latest" (Config.scalarVersion cfg) in
  let scalarCDN := default EmptyString (Config.scalarCDN cfg) in
  let scalarConfig := default (JS.VObject []) (Config.scalarConfig cfg) in
  let documentation := default OpenAPIDocumentation.empty (Config.documentation cfg) in
  let version := default "4.18.2" (Config.version cfg) in
  let excludeStaticFile := default true (Config.excludeStaticFile cfg) in
  let path := default "/swagger" (Config.path cfg) in
  let specPath := default (path ++ "/json") (Config.specPath cfg) in
  let exclude := default (ExcludeMany []) (Config.exclude cfg) in
  let swaggerOptions := default (JS.VObject []) (Config.swaggerOptions cfg) in
  let theme :=
    default (ThemeUrl ("https://unpkg.com/swagger-ui-dist@" ++ version ++ "/swagger-ui.css"))
            (Config.theme cfg) in
  let autoDarkMode := default true (Config.autoDarkMode cfg) in
  let excludeMethods := default ["OPTIONS"] (Config.excludeMethods cfg) in
  let excludeTags := default [] (Config.excludeTags cfg) in
  fun (req : Request) (next : Handler World) (w : World) =>
    match URL.pathname (url req) with
    | Throw e => (Throw e, w)
    | Stuck => (Stuck, w)
    | Done pathname =>
        if String.eqb pathname path then
          (let* htmlContent :=
             match provider with
             | swagger_ui =>
                 renderSwaggerUI h
                   (default OpenAPIInfo.empty (OpenAPIDocumentation.info documentation))
                   version theme swaggerOptions autoDarkMode
             | scalar =>
                 renderScalar h
                   (default OpenAPIInfo.empty (OpenAPIDocumentation.info documentation))
                   scalarVersion scalarConfig scalarCDN
             end in
           Done (Promise_resolve (htmlResponse htmlContent)), w)
        else if String.eqb pathname specPath then
          let spec := createOpenAPISpec documentation in
          (let* response := json h (OpenAPISpec.to_value spec) in
           Done (Promise_resolve response), w)
        else next w
    end.

(** ** The values that a renderer hands to [JSON.stringify] *)

(** [renderScalar] serialises the whole [scalarConfig]; [renderSwaggerUI]
    serialises the value of each entry of [swaggerOptions]. *)
Definition serialised_options (h : JS.heap) (cfg : Config.t) : outcome (list JS.value) :=
  match default scalar (Config.provider cfg) with
  | scalar => Done [default (JS.VObject []) (Config.scalarConfig cfg)]
  | swagger_ui =>
      let* entries := Object_entries h (default (JS.VObject []) (Config.swaggerOptions cfg)) in
      Done (map snd entries)
  end.

(** ** The object graph *)

Module Graph.
Import JS.

(** [edge h v x]: [x] is a property value or an element of [v], or the
    object that the reference [v] stands for. *)
Inductive edge (h : heap) : value -> value -> Prop :=
| edge_prop props k x : In (k, x) props -> edge h (VObject props) x
| edge_elem elems x : In x elems -> edge h (VArray elems) x
| edge_ref l o : nth_error h l = Some o -> edge h (VRef l) o.

Inductive reaches (h : heap) : value -> value -> Prop :=
| reaches_refl v : reaches h v v
| reaches_step v x y : edge h v x -> reaches h x y -> reaches h v y.

(** [x] lies on a cycle: it is reached from itself by at least one edge. *)
Definition on_cycle (h : heap) (x : value) : Prop :=
  exists y, edge h x y /\ reaches h y x.

(** [v] holds a circular reference. *)
Definition circular (h : heap) (v : value) : Prop :=
  exists x, reaches h v x /\ on_cycle h x.

(** [v] holds a BigInt. *)
Definition holds_bigint (h : heap) (v : value) : Prop :=
  exists z, reaches h v (VBigInt z).

Definition unserialisable (h : heap) (v : value) : Prop :=
  circular h v \/ holds_bigint h v.

(** What stands in the way of a text for [v] while the objects of [stack]
    are being serialised. *)
Definition blocked (h : heap) (stack : list loc) (v : value) : Prop :=
  holds_bigint h v \/ circular h v \/ exists l, In l stack /\ reaches h v (VRef l).

(** [v] holds a function or an undefined value. *)
Definition holds_function (h : heap) (v : value) : Prop :=
  reaches h v VFunction.

(** Every reference in [v] points at an object or array of the heap. *)
Fixpoint refs_ok (h : heap) (v : value) : bool :=
  match v with
  | VObject props => forallb (fun kv => let (_, x) := kv : string * value in refs_ok h x) props
  | VArray elems => forallb (refs_ok h) elems
  | VRef l =>
      match nth_error h l with
      | Some (VObject _) | Some (VArray _) => true
      | _ => false
      end
  | _ => true
  end.

(** No reference of a heap cell leaves the heap. *)
Definition heap_ok (h : heap) : bool := forallb (refs_ok h) h.

End Graph.

(** ** [JSON.parse] *)

Module Parse.
Import JS.

Definition is_digit (c : ascii) : bool :=
  let n := nat_of_ascii c in Nat.leb 48 n && Nat.leb n 57.

Fixpoint span_digits (s : string) : string * string :=
  match s with
  | EmptyString => (EmptyString, EmptyString)
  | String c r =>
      if is_digit c
      then let (ds, rest) := span_digits r in (String c ds, rest)
      else (EmptyString, s)
  end.

Definition hex_value (c : ascii) : option nat :=
  let n := nat_of_ascii c in
  if Nat.leb 48 n && Nat.leb n 57 then Some (n - 48)
  else if Nat.leb 97 n && Nat.leb n 102 then Some (n - 87)
  else if Nat.leb 65 n && Nat.leb n 70 then Some (n - 55)
  else None.

(** The character that a one-letter escape stands for. *)
Definition escape (e : ascii) : option ascii :=
  let n := nat_of_ascii e in
  if Nat.eqb n 34 then Some Str.dq
  else if Nat.eqb n 92 then Some "\"%char
  else if Nat.eqb n 47 then Some "/"%char
  else if Nat.eqb n 98 then Some (ascii_of_nat 8)
  else if Nat.eqb n 102 then Some (ascii_of_nat 12)
  else if Nat.eqb n 110 then Some (ascii_of_nat 10)
  else if Nat.eqb n 114 then Some (ascii_of_nat 13)
  else if Nat.eqb n 116 then Some (ascii_of_nat 9)
  else None.

Definition cons_char (c : ascii) (o : option (string * string)) : option (string * string) :=
  match o with
  | Some (str, rest) => Some (String c str, rest)
  | None => None
  end.

(** The characters of a string literal after its opening quote, and the
    text after its closing quote.  A code unit above 255 is outside the
    model. *)
Fixpoint parse_chars (s : string) : option (string * string) :=
  match s with
  | EmptyString => None
  | String c r =>
      if Ascii.eqb c Str.dq then Some (EmptyString, r)
      else if Ascii.eqb c "\"%char then
        match r with
        | EmptyString => None
        | String e r' =>
            if Ascii.eqb e "u"%char then
              match r' with
              | String a (String b (String c' (String d r''))) =>
                  match hex_value a, hex_value b, hex_value c', hex_value d with
                  | Some x3, Some x2, Some x1, Some x0 =>
                      let code := ((x3 * 16 + x2) * 16 + x1) * 16 + x0 in
                      if Nat.ltb code 256
                      then cons_char (ascii_of_nat code) (parse_chars r'')
                      else None
                  | _, _, _, _ => None
                  end
              | _ => None
              end
            else
              match escape e with
              | Some ch => cons_char ch (parse_chars r')
              | None => None
              end
        end
      else if Nat.ltb (nat_of_ascii c) 32 then None
      else cons_char c (parse_chars r)
  end.

(** An integer literal: an optional minus sign and digits without a leading
    zero.  A fraction or an exponent is outside the model. *)
Definition parse_number (s : string) : option (Z * string) :=
  let (lit, rest) :=
    match s with
    | String "-" r => let (ds, rest) := span_digits r in (String "-" ds, rest)
    | _ => span_digits s
    end in
  match NilZero.int_of_string lit with
  | Some d =>
      let z := Z.of_int d in
      if String.eqb lit "-0" || String.eqb (Z_to_string z) lit
      then Some (z, rest) else None
  | None => None
  end.

(** [strip p s]: [s] without its prefix [p]. *)
Fixpoint strip (p s : string) : option string :=
  match p, s with
  | EmptyString, _ => Some s
  | String a p', String b s' => if Ascii.eqb a b then strip p' s' else None
  | _, _ => None
  end.

Definition keyword (p : string) (v : value) (s : string) : option (value * string) :=
  match strip p s with
  | Some rest => Some (v, rest)
  | None => None
  end.

(** A JSON text without insignificant white space, which is what
    [JSON.stringify] without a space argument writes.  An object keeps its
    members in the order of the text. *)
Fixpoint parse_value (fuel : nat) (s : string) : option (value * string) :=
  match fuel with
  | O => None
  | S fuel' =>
      match s with
      | EmptyString => None
      | String c r =>
          if Ascii.eqb c "n"%char then keyword "ull" VNull r
          else if Ascii.eqb c "t"%char then keyword "rue" (VBoolean true) r
          else if Ascii.eqb c "f"%char then keyword "alse" (VBoolean false) r
          else if Ascii.eqb c Str.dq then
            match parse_chars r with
            | Some (str, rest) => Some (VString str, rest)
            | None => None
            end
          else if Ascii.eqb c "["%char then
            match r with
            | String "]" rest => Some (VArray [], rest)
            | _ =>
                match parse_elements fuel' r with
                | Some (es, rest) => Some (VArray es, rest)
                | None => None
                end
            end
          else if Ascii.eqb c "{"%char then
            match r with
            | String "}" rest => Some (VObject [], rest)
            | _ =>
                match parse_members fuel' r with
                | Some (ps, rest) => Some (VObject ps, rest)
                | None => None
                end
            end
          else
            match parse_number s with
            | Some (z, rest) => Some (VNumber (Int z), rest)
            | None => None
            end
      end
  end
with parse_elements (fuel : nat) (s : string) : option (list value * string) :=
  match fuel with
  | O => None
  | S fuel' =>
      match parse_value fuel' s with
      | Some (v, String c r) =>
          if Ascii.eqb c ","%char then
            match parse_elements fuel' r with
            | Some (es, rest) => Some (v :: es, rest)
            | None => None
            end
          else if Ascii.eqb c "]"%char then Some ([v], r)
          else None
      | _ => None
      end
  end
with parse_members (fuel : nat) (s : string) : option (list (string * value) * string) :=
  match fuel with
  | O => None
  | S fuel' =>
      match s with
      | String q r =>
          if Ascii.eqb q Str.dq then
            match parse_chars r with
            | Some (k, String ":" r') =>
                match parse_value fuel' r' with
                | Some (v, String c r'') =>
                    if Ascii.eqb c ","%char then
                      match parse_members fuel' r'' with
                      | Some (ps, rest) => Some ((k, v) :: ps, rest)
                      | None => None
                      end
                    else if Ascii.eqb c "}"%char then Some ([(k, v)], r'')
                    else None
                | _ => None
                end
            | _ => None
            end
          else None
      | EmptyString => None
      end
  end.

(** [JSON.parse(text)]; [None] when the text is not accepted. *)
Definition JSON_parse (text : string) : option value :=
  match parse_value (S (String.length text)) text with
  | Some (v, EmptyString) => Some v
  | _ => None
  end.

(** Reading property [k] of a parsed value: of the members with this key
    the last one of the text counts. *)
Fixpoint lookup_last (k : string) (ps : list (string * value)) : option value :=
  match ps with
  | [] => None
  | (k', x) :: ps' =>
      match lookup_last k ps' with
      | Some y => Some y
      | None => if String.eqb k k' then Some x else None
      end
  end.

Definition Get (v : value) (k : string) : value :=
  match v with
  | VObject props =>
      match lookup_last k props with
      | Some x => x
      | None => VUndefined
      end
  | _ => VUndefined
  end.

End Parse.

(** ** The value that a JSON text of [JSON.stringify] denotes *)

Module Image.
Import JS.

Section Image.

Variable at_ref : list loc -> loc -> outcome (option value).

(** Follows [ser_value] and builds the value instead of its text:
    references are replaced by what they refer to, members without a
    text are left out, elements without a text and numbers that are not
    finite become null. *)
Fixpoint image_value (stack : list loc) (v : value) : outcome (option value) :=
  match v with
  | VUndefined | VFunction => Done None
  | VNull => Done (Some VNull)
  | VBoolean b => Done (Some (VBoolean b))
  | VNumber (Int z) => Done (Some (VNumber (Int z)))
  | VNumber _ => Done (Some VNull)
  | VBigInt _ => Throw bigint_error
  | VString s => Done (Some (VString s))
  | VObject props =>
      let* partial :=
        (fix members (ps : list (string * value)) : outcome (list (string * value)) :=
           match ps with
           | [] => Done []
           | (k, x) :: ps' =>
               let* img := image_value stack x in
               let* rest := members ps' in
               Done match img with
                    | Some j => (k, j) :: rest
                    | None => rest
                    end
           end) props in
      Done (Some (VObject partial))
  | VArray elems =>
      let* partial :=
        (fix elements (es : list value) : outcome (list value) :=
           match es with
           | [] => Done []
           | x :: es' =>
               let* img := image_value stack x in
               let* rest := elements es' in
               Done (match img with
                     | Some j => j
                     | None => VNull
                     end :: rest)
           end) elems in
      Done (Some (VArray partial))
  | VRef l => at_ref stack l
  end.

End Image.

Fixpoint image_fuel (fuel : nat) (h : heap) (stack : list loc) (v : value)
  : outcome (option value) :=
  match fuel with
  | O => Stuck
  | S fuel' =>
      image_value
        (fun stack' l =>
           if existsb (Nat.eqb l) stack' then Throw cyclic_error
           else match nth_error h l with
                | Some (VObject props) => image_fuel fuel' h (l :: stack') (VObject props)
                | Some (VArray elems) => image_fuel fuel' h (l :: stack') (VArray elems)
                | _ => Stuck
                end)
        stack v
  end.

Definition JSON_image (h : heap) (v : value) : outcome (option value) :=
  image_fuel (S (length h)) h [] v.

(** The text of a value that is its own image. *)
Fixpoint print (j : value) : string :=
  match j with
  | VBoolean true => "true"
  | VBoolean false => "false"
  | VNumber (Int z) => Z_to_string z
  | VString s => QuoteJSONString s
  | VObject props =>
      "{" ++ Str.join ","
               (map (fun kv => let (k, x) := kv : string * value in
                               QuoteJSONString k ++ ":" ++ print x) props)
          ++ "}"
  | VArray elems => "[" ++ Str.join "," (map print elems) ++ "]"
  | _ => "null"
  end.

(** Values that are their own image: no reference, no function, no
    undefined, no BigInt, no number that is not finite. *)
Fixpoint plain (j : value) : bool :=
  match j with
  | VNull | VBoolean _ | VString _ | VNumber (Int _) => true
  | VObject props => forallb (fun kv => let (_, x) := kv : string * value in plain x) props
  | VArray elems => forallb plain elems
  | _ => false
  end.

(** The fuel that parsing the text of [j] needs. *)
Fixpoint size (j : value) : nat :=
  match j with
  | VObject props =>
      S (fold_right (fun kv n => let (_, x) := kv : string * value in S (size x) + n) 0 props)
  | VArray elems => S (fold_right (fun x n => S (size x) + n) 0 elems)
  | _ => 1
  end.

End Image.

(** ** Notions used in the statements *)

(** The paths that [swagger] resolves from the configuration. *)
Definition ui_path (cfg : Config.t) : string :=
  default "/swagger" (Config.path cfg).

Definition spec_path (cfg : Config.t) : string :=
  default (ui_path cfg ++ "/json") (Config.specPath cfg).

(** The documentation fragment that [swagger] resolves. *)
Definition documentation_of (cfg : Config.t) : OpenAPIDocumentation.t :=
  default OpenAPIDocumentation.empty (Config.documentation cfg).

(** Configurations that differ in one field. *)
Definition set_theme (th : option Theme) (c : Config.t) : Config.t :=
  Config.Build (Config.provider c) (Config.scalarVersion c) (Config.scalarCDN c)
    (Config.scalarConfig c) (Config.documentation c) (Config.version c)
    (Config.excludeStaticFile c) (Config.path c) (Config.specPath c) (Config.exclude c)
    (Config.swaggerOptions c) th (Config.autoDarkMode c)
    (Config.excludeMethods c) (Config.excludeTags c).

Definition set_excludes (ms ts : option (list string)) (c : Config.t) : Config.t :=
  Config.Build (Config.provider c) (Config.scalarVersion c) (Config.scalarCDN c)
    (Config.scalarConfig c) (Config.documentation c) (Config.version c)
    (Config.excludeStaticFile c) (Config.path c) (Config.specPath c) (Config.exclude c)
    (Config.swaggerOptions c) (Config.theme c) (Config.autoDarkMode c) ms ts.

Definition set_specPath (sp : option string) (c : Config.t) : Config.t :=
  Config.Build (Config.provider c) (Config.scalarVersion c) (Config.scalarCDN c)
    (Config.scalarConfig c) (Config.documentation c) (Config.version c)
    (Config.excludeStaticFile c) (Config.path c) sp (Config.exclude c)
    (Config.swaggerOptions c) (Config.theme c) (Config.autoDarkMode c)
    (Config.excludeMethods c) (Config.excludeTags c).

(** The keys of an object, in enumeration order. *)
Definition keys (v : JS.value) : list string :=
  match v with
  | JS.VObject props => map fst props
  | _ => []
  end.

(** The text that marks a page of each viewer: the script bundle of the
    classic viewer, the id of the content element of the reference viewer. *)
Definition marker (p : Provider) : string :=
  match p with
  | swagger_ui => "swagger-ui-bundle.js"
  | scalar => "api-reference"
  end.

(** The directory of a path: up to and including its last slash. *)
Fixpoint dirname (path : string) : string :=
  match path with
  | EmptyString => EmptyString
  | String c r =>
      if Str.includes "/" r then String c (dirname r)
      else if Ascii.eqb c "/"%char then "/" else EmptyString
  end.

(** The path that a browser resolves the relative reference [./name] to on a
    page served at [page_path] (RFC 3986, 5.2). *)
Definition resolve_dot (page_path name : string) : string :=
  dirname page_path ++ name.

(** [JSON.stringify] completes on [v]. *)
Definition completes (h : JS.heap) (v : JS.value) : bool :=
  match JS.JSON_stringify h v with
  | Done _ => true
  | _ => false
  end.

(** The page that [swagger] renders at the UI path. *)
Definition ui_page (h : JS.heap) (cfg : Config.t) : outcome string :=
  let info := default OpenAPIInfo.empty (OpenAPIDocumentation.info (documentation_of cfg)) in
  let version := default "4.18.2" (Config.version cfg) in
  match default scalar (Config.provider cfg) with
  | swagger_ui =>
      renderSwaggerUI h info version
        (default (ThemeUrl ("https://unpkg.com/swagger-ui-dist@" ++ version ++ "/swagger-ui.css"))
                 (Config.theme cfg))
        (default (JS.VObject []) (Config.swaggerOptions cfg))
        (default true (Config.autoDarkMode cfg))
  | scalar =>
      renderScalar h info (default "latest" (Config.scalarVersion cfg))
        (default (JS.VObject []) (Config.scalarConfig cfg))
        (default EmptyString (Config.scalarCDN cfg))
  end.

(** A handler that counts its calls in the world and answers 404. *)
Definition not_found : Handler nat :=
  fun w => (Done (Fulfilled {| status := 404; content_type := "text/plain";
                               body := "Not Found" |}), S w).

Definition GET (href : string) : Request := {| method := "GET"; url := href |}.

(** ** The loops of the serialiser, by name *)

Module Loops.
Import JS.

Section Text.

Variable f : value -> outcome (option string).

(** The loop over the properties in [ser_value]. *)
Fixpoint ser_members (ps : list (string * value)) : outcome (list string) :=
  match ps with
  | [] => Done []
  | (k, x) :: ps' =>
      let* strP := f x in
      let* rest := ser_members ps' in
      Done match strP with
           | Some str => (QuoteJSONString k ++ ":" ++ str) :: rest
           | None => rest
           end
  end.

(** The loop over the elements in [ser_value]. *)
Fixpoint ser_elements (es : list value) : outcome (list string) :=
  match es with
  | [] => Done []
  | x :: es' =>
      let* strP := f x in
      let* rest := ser_elements es' in
      Done (match strP with
            | Some str => str
            | None => "null"
            end :: rest)
  end.

End Text.

Section Value.

Variable f : value -> outcome (option value).

(** The loop over the properties in [image_value]. *)
Fixpoint image_members (ps : list (string * value)) : outcome (list (string * value)) :=
  match ps with
  | [] => Done []
  | (k, x) :: ps' =>
      let* img := f x in
      let* rest := image_members ps' in
      Done match img with
           | Some j => (k, j) :: rest
           | None => rest
           end
  end.

(** The loop over the elements in [image_value]. *)
Fixpoint image_elements (es : list value) : outcome (list value) :=
  match es with
  | [] => Done []
  | x :: es' =>
      let* img := f x in
      let* rest := image_elements es' in
      Done (match img with
            | Some j => j
            | None => VNull
            end :: rest)
  end.

End Value.

(** What [ser_fuel] does at a reference. *)
Definition ser_ref (fuel : nat) (h : heap) (stack : list loc) (l : loc)
  : outcome (option string) :=
  if existsb (Nat.eqb l) stack then Throw cyclic_error
  else match nth_error h l with
       | Some (VObject props) => ser_fuel fuel h (l :: stack) (VObject props)
       | Some (VArray elems) => ser_fuel fuel h (l :: stack) (VArray elems)
       | _ => Stuck
       end.

(** What [image_fuel] does at a reference. *)
Definition image_ref (fuel : nat) (h : heap) (stack : list loc) (l : loc)
  : outcome (option value) :=
  if existsb (Nat.eqb l) stack then Throw cyclic_error
  else match nth_error h l with
       | Some (VObject props) => Image.image_fuel fuel h (l :: stack) (VObject props)
       | Some (VArray elems) => Image.image_fuel fuel h (l :: stack) (VArray elems)
       | _ => Stuck
       end.

End Loops.

(** ** Values whose unfolding through the heap is a finite tree *)

Module Tree.
Import JS.

(** Values without parts, BigInt apart. *)
Definition leaf (v : value) : bool :=
  match v with
  | VUndefined | VNull | VBoolean _ | VNumber _ | VString _ | VFunction => true
  | _ => false
  end.

Inductive finite (h : heap) : value -> Prop :=
| finite_leaf v : leaf v = true -> finite h v
| finite_object props :
    (forall k x, In (k, x) props -> finite h x) -> finite h (VObject props)
| finite_array elems :
    (forall x, In x elems -> finite h x) -> finite h (VArray elems)
| finite_ref l o : nth_error h l = Some o -> finite h o -> finite h (VRef l).

End Tree.

(** ** Notions used in the round trip *)

Module RoundTrip.
Import JS.

(** The outcome of the serialiser, from the outcome of the image. *)
Definition text_of (i : outcome (option value)) : outcome (option string) :=
  match i with
  | Done (Some j) => Done (Some (Image.print j))
  | Done None => Done None
  | Throw e => Throw e
  | Stuck => Stuck
  end.

(** The text of a member of an object. *)
Definition member_text (kv : string * value) : string :=
  let (k, x) := kv in QuoteJSONString k ++ ":" ++ Image.print x.

(** A text that may follow a number: it does not start with a digit. *)
Definition follows_number (rest : string) : bool :=
  match rest with
  | EmptyString => true
  | String c _ => negb (Parse.is_digit c)
  end.

(** The fuel that parsing the members of an object and the elements of an
    array needs. *)
Definition members_size (ps : list (string * value)) : nat :=
  fold_right (fun kv n => let (_, x) := kv : string * value in S (Image.size x) + n) 0 ps.

Definition elements_size (es : list value) : nat :=
  fold_right (fun x n => S (Image.size x) + n) 0 es.

(** A value is read back from its text, whatever follows. *)
Definition reads_back (j : value) : Prop :=
  forall fuel rest,
    Image.size j <= fuel ->
    follows_number rest = true ->
    Parse.parse_value fuel (Image.print j ++ rest) = Some (j, rest).

(** The first character of a JSON value that is not a number. *)
Definition starts_other (c : ascii) : bool :=
  Ascii.eqb c "n"%char || Ascii.eqb c "t"%char || Ascii.eqb c "f"%char
  || Ascii.eqb c Str.dq || Ascii.eqb c "["%char || Ascii.eqb c "{"%char.

End RoundTrip.

(** ** The renderer of the reference viewer in src/unnamed/part_000 *)

Module Scalar.
Import JS.

(** The style sheet that [ScalarRender] falls back to. *)
Definition defaultTheme : string :=
"
  body {
    font-family: -apple-system, BlinkMacSystemFont, 'Segoe UI', Roboto, sans-serif;
    background: #f5f5f5;
  }
  #api-reference {
    min-height: 100vh;
  }
".

(** [OpenAPIV3.InfoObject], as far as [ScalarRender] reads it. *)
Record InfoObject := BuildInfo {
  title : string;
  description : option string
}.

(** The own property [k] of an object, undefined when there is none. *)
Fixpoint own_property (k : string) (props : list (string * value)) : value :=
  match props with
  | [] => VUndefined
  | (k', x) :: props' => if String.eqb k k' then x else own_property k props'
  end.

(** [v.k] for a key that no prototype defines (as customCss, spec and url):
    reading from undefined or null throws; reading from another primitive,
    an array or a function is outside the model. *)
Definition get_property (h : heap) (v : value) (k : string) : outcome value :=
  match v with
  | VUndefined =>
      Throw (TypeError ("Cannot read properties of undefined (reading '" ++ k ++ "')"))
  | VNull =>
      Throw (TypeError ("Cannot read properties of null (reading '" ++ k ++ "')"))
  | VObject props => Done (own_property k props)
  | VRef l =>
      match nth_error h l with
      | Some (VObject props) => Done (own_property k props)
      | _ => Stuck
      end
  | _ => Stuck
  end.

(** [a ?? b]. *)
Definition nullish_or (a b : value) : value :=
  match a with
  | VUndefined | VNull => b
  | _ => a
  end.

(** [v?.k]. *)
Definition optional_property (h : heap) (v : value) (k : string) : outcome value :=
  match v with
  | VUndefined | VNull => Done VUndefined
  | _ => get_property h v k
  end.

(** [ToString] as a template literal applies it; arrays and functions are
    outside the model. *)
Definition ToString (h : heap) (v : value) : outcome string :=
  match v with
  | VUndefined => Done "undefined"
  | VNull => Done "null"
  | VBoolean true => Done "true"
  | VBoolean false => Done "false"
  | VNumber NaN => Done "NaN"
  | VNumber PosInfinity => Done "Infinity"
  | VNumber NegInfinity => Done "-Infinity"
  | VNumber (Int z) => Done (Z_to_string z)
  | VBigInt z => Done (Z_to_string z)
  | VString s => Done s
  | VObject _ => Done "[object Object]"
  | VRef l =>
      match nth_error h l with
      | Some (VObject _) => Done "[object Object]"
      | _ => Stuck
      end
  | _ => Stuck
  end.

Definition ScalarRender (h : heap) (info : InfoObject) (version : string)
    (config : value) (cdn : string)
  : outcome string :=
  let title := title info in
  let description := description info in
  let* customCss := get_property h config "customCss" in
  let* css := ToString h (nullish_or customCss (VString defaultTheme)) in
  let* spec := get_property h config "spec" in
  let* url := optional_property h spec "url" in
  let* dataUrl := ToString h url in
  let* configuration := JSON_stringify h config in
  Done (Str.tpl "<!doctype html>
<html>
  <head>
    <title>" ++ title ++ Str.tpl "</title>
    <meta
        name=`description`
        content=`" ++ JS.interpolate description ++ Str.tpl "`
    />
    <meta
        name=`og:description`
        content=`" ++ JS.interpolate description ++ Str.tpl "`
    />
    <meta charset=`utf-8` />
    <meta
      name=`viewport`
      content=`width=device-width, initial-scale=1` />
    <style>
      body {
        margin: 0;
      }
    </style>
    <style>
      " ++ css ++ Str.tpl "
    </style>
  </head>
  <body>
    <script
      id=`api-reference`
      data-url=`" ++ dataUrl ++ Str.tpl "`
      data-configuration='" ++ JS.interpolate configuration ++ Str.tpl "'
    >
    </script>
    <script src=`" ++ Str.or_else cdn
        ("https://cdn.jsdelivr.net/npm/@scalar/api-reference@" ++ version
           ++ "/dist/browser/standalone.min.js") ++ Str.tpl "` crossorigin></script>
  </body>
</html>").

End Scalar.

(** ** Further notions used in the statements *)

(** Configurations that differ in the options of the classic viewer. *)
Definition set_classic_options (v : option string) (so : option JS.value)
    (th : option Theme) (dm : option bool) (c : Config.t) : Config.t :=
  Config.Build (Config.provider c) (Config.scalarVersion c) (Config.scalarCDN c)
    (Config.scalarConfig c) (Config.documentation c) v
    (Config.excludeStaticFile c) (Config.path c) (Config.specPath c) (Config.exclude c)
    so th dm (Config.excludeMethods c) (Config.excludeTags c).

(** Configurations that differ in the options of the reference viewer. *)
Definition set_reference_options (sv sc : option string) (sg : option JS.value)
    (c : Config.t) : Config.t :=
  Config.Build (Config.provider c) sv sc sg (Config.documentation c) (Config.version c)
    (Config.excludeStaticFile c) (Config.path c) (Config.specPath c) (Config.exclude c)
    (Config.swaggerOptions c) (Config.theme c) (Config.autoDarkMode c)
    (Config.excludeMethods c) (Config.excludeTags c).

(** Configurations that differ in the documentation fragment. *)
Definition set_documentation (d : option OpenAPIDocumentation.t) (c : Config.t) : Config.t :=
  Config.Build (Config.provider c) (Config.scalarVersion c) (Config.scalarCDN c)
    (Config.scalarConfig c) d (Config.version c)
    (Config.excludeStaticFile c) (Config.path c) (Config.specPath c) (Config.exclude c)
    (Config.swaggerOptions c) (Config.theme c) (Config.autoDarkMode c)
    (Config.excludeMethods c) (Config.excludeTags c).

(** The title that the renderers write. *)
Definition page_title (cfg : Config.t) : string :=
  Str.opt_or_else
    (OpenAPIInfo.title
       (default OpenAPIInfo.empty (OpenAPIDocumentation.info (documentation_of cfg))))
    "API Documentation".

(** The built document, handed in as a documentation fragment. *)
Definition as_documentation (s : OpenAPISpec.t) : OpenAPIDocumentation.t :=
  OpenAPIDocumentation.Build
    (Some (OpenAPIInfo.Build (Some (OpenAPISpec.title (OpenAPISpec.info s)))
                             (Some (OpenAPISpec.description (OpenAPISpec.info s)))
                             (Some (OpenAPISpec.version (OpenAPISpec.info s)))))
    (Some (OpenAPISpec.tags s))
    (Some (OpenAPISpec.components s))
    (Some (OpenAPISpec.paths s)).

(** A text without question mark and hash. *)
Fixpoint no_query (s : string) : bool :=
  match s with
  | EmptyString => true
  | String c r =>
      negb (Ascii.eqb c "?"%char || Ascii.eqb c "#"%char) && no_query r
  end.

(** A text that starts a query or a fragment. *)
Definition starts_query (s : string) : bool :=
  match s with
  | EmptyString => false
  | String c _ => Ascii.eqb c "?"%char || Ascii.eqb c "#"%char
  end.

(** What [URL.pathname] takes from the text after the scheme. *)
Definition path_after_scheme (r : string) : string :=
  match r with
  | String "/" (String "/" r') => URL.take_path (URL.skip_authority r')
  | _ => URL.take_path r
  end.

(** * Properties *)

(** ** Strings *)

Lemma append_assoc (a b c : string) : (a ++ b) ++ c = a ++ (b ++ c).
Proof.
  induction a as [|x a IH]; simpl; [reflexivity | now rewrite IH].
Qed.

Lemma append_nil_r (a : string) : a ++ EmptyString = a.
Proof.
  induction a as [|x a IH]; simpl; [reflexivity | now rewrite IH].
Qed.

Lemma prefix_app (m a b : string) :
  String.prefix m a = true -> String.prefix m (a ++ b) = true.
Proof.
  revert a; induction m as [|x m IH]; intros a H; [now destruct (a ++ b)|].
  destruct a as [|y a]; simpl in *; [discriminate|].
  destruct (ascii_dec x y); [auto | discriminate].
Qed.

Lemma prefix_self (m b : string) : String.prefix m (m ++ b) = true.
Proof.
  induction m as [|x m IH]; simpl; [now destruct b|].
  destruct (ascii_dec x x); [assumption | contradiction].
Qed.

Lemma includes_app_l (m a b : string) :
  Str.includes m a = true -> Str.includes m (a ++ b) = true.
Proof.
  induction a as [|x a IH]; simpl; intros H.
  - rewrite orb_false_r in H. destruct m; [now destruct b | discriminate].
  - apply orb_true_iff in H. apply orb_true_iff. destruct H as [H|H].
    + left. exact (prefix_app m (String x a) b H).
    + right. auto.
Qed.

Lemma includes_app_r (m a b : string) :
  Str.includes m b = true -> Str.includes m (a ++ b) = true.
Proof.
  induction a as [|x a IH]; simpl; intros H; [assumption|].
  apply orb_true_iff. right. auto.
Qed.

Lemma includes_prefix (m s : string) :
  String.prefix m s = true -> Str.includes m s = true.
Proof.
  intros H. destruct s; unfold Str.includes; fold Str.includes; now rewrite H.
Qed.

Lemma includes_middle (m a b : string) : Str.includes m (a ++ m ++ b) = true.
Proof.
  apply includes_app_r, includes_prefix, prefix_self.
Qed.

Lemma eqb_neq_false (a b : string) : a <> b -> String.eqb a b = false.
Proof.
  intros H. now apply String.eqb_neq.
Qed.

Lemma Done_inj (A : Type) (a b : A) : Done a = Done b -> a = b.
Proof.
  intros H. now injection H.
Qed.

(** ** The router *)

(** What [swagger] does with a request, by its pathname. *)
Lemma swagger_routes (World : Type) (h : JS.heap) (cfg : Config.t)
    (req : Request) (next : Handler World) (w : World) (p : string) :
  URL.pathname (url req) = Done p ->
  swagger h cfg req next w =
    if String.eqb p (ui_path cfg) then
      (let* page := ui_page h cfg in Done (Promise_resolve (htmlResponse page)), w)
    else if String.eqb p (spec_path cfg) then
      (let* response := json h (OpenAPISpec.to_value (createOpenAPISpec (documentation_of cfg))) in
       Done (Promise_resolve response), w)
    else next w.
Proof.
  intros Hp. unfold swagger, ui_page, ui_path, spec_path, documentation_of.
  rewrite Hp. unfold ui_path.
  destruct (String.eqb p (default "/swagger" (Config.path cfg))); [|reflexivity].
  destruct (default scalar (Config.provider cfg)); reflexivity.
Qed.

(** Off both paths the middleware is [next()]. *)
Lemma swagger_delegates (World : Type) (h : JS.heap) (cfg : Config.t)
    (req : Request) (next : Handler World) (w : World) (p : string) :
  URL.pathname (url req) = Done p ->
  p <> ui_path cfg ->
  p <> spec_path cfg ->
  swagger h cfg req next w = next w.
Proof.
  intros Hp Hui Hspec.
  rewrite (swagger_routes World h cfg req next w p Hp).
  now rewrite (eqb_neq_false _ _ Hui), (eqb_neq_false _ _ Hspec).
Qed.

(** C1: a request whose pathname is neither the UI path nor the spec path
    gets exactly what [next()] produces, and the world is as [next()] left
    it: status, content type and body are those of the downstream response,
    and a downstream rejection or exception passes through unchanged. *)
Theorem swagger_pass_through (World : Type) (h : JS.heap) (cfg : Config.t)
    (req : Request) (next : Handler World) (w : World) (p : string) :
  URL.pathname (url req) = Done p ->
  p <> ui_path cfg ->
  p <> spec_path cfg ->
  swagger h cfg req next w = next w.
Proof.
  intros Hp Hui Hspec.
  rewrite (swagger_routes World h cfg req next w p Hp).
  rewrite (eqb_neq_false p (ui_path cfg) Hui).
  rewrite (eqb_neq_false p (spec_path cfg) Hspec).
  reflexivity.
Qed.

Lemma swagger_pass_through_witness :
  swagger [] Config.empty (GET "http://localhost/") not_found 0 = not_found 0.
Proof.
  apply (swagger_pass_through nat [] Config.empty (GET "http://localhost/") not_found 0 "/");
    [reflexivity | discriminate | discriminate].
Defined.

(** ** The spec builder *)

(** C3, as stated, fails: a supplied title is not always taken verbatim,
    since [||] replaces the empty string by the default. *)
Lemma createOpenAPISpec_supplied_not_verbatim :
  ~ (forall (doc : OpenAPIDocumentation.t) (t : string),
       opt_chain (OpenAPIDocumentation.info doc) OpenAPIInfo.title = Some t ->
       OpenAPISpec.title (OpenAPISpec.info (createOpenAPISpec doc)) = t).
Proof.
  intros H.
  specialize (H (OpenAPIDocumentation.Build
                   (Some (OpenAPIInfo.Build (Some EmptyString) None None))
                   None None None)
                EmptyString eq_refl).
  discriminate H.
Qed.

(** How [createOpenAPISpec] fills a text field of [info]. *)
Lemma opt_or_else_spec (supplied : option string) (d : string) :
  (supplied = None \/ supplied = Some EmptyString -> Str.opt_or_else supplied d = d) /\
  (forall t, supplied = Some t -> t <> EmptyString -> Str.opt_or_else supplied d = t).
Proof.
  split.
  - intros [-> | ->]; reflexivity.
  - intros t -> Ht. destruct t; [contradiction | reflexivity].
Qed.

Lemma or_default_spec (supplied : option JS.value) (d : JS.value) :
  (supplied = None -> JS.or_default supplied d = d) /\
  (forall v, supplied = Some v -> JS.ToBoolean v = true -> JS.or_default supplied d = v).
Proof.
  split.
  - intros ->; reflexivity.
  - intros v -> Hv. simpl. now rewrite Hv.
Qed.

(** C3 (amended): the built document has exactly the keys openapi, info,
    paths, components, tags, in this order, and openapi is 3.0.3.  A text
    field of info that is absent or the empty string gets its default (Vafast
    API, API documentation, 1.0.0); a supplied text that is not empty is taken
    verbatim.  Absent paths, components and tags become the empty object, the
    empty object and the empty array; a supplied object or array is taken
    verbatim.  In the merge scenario the title is Custom API, the version
    2.0.0, and tags has length 1. *)
Theorem createOpenAPISpec_fields (doc : OpenAPIDocumentation.t) :
  let s := createOpenAPISpec doc in
  let supplied (f : OpenAPIInfo.t -> option string) :=
    opt_chain (OpenAPIDocumentation.info doc) f in
  keys (OpenAPISpec.to_value s) = ["openapi"; "info"; "paths"; "components"; "tags"] /\
  keys (Parse.Get (OpenAPISpec.to_value s) "info") = ["title"; "description"; "version"] /\
  OpenAPISpec.openapi s = "3.0.3" /\
  ((supplied OpenAPIInfo.title = None \/ supplied OpenAPIInfo.title = Some EmptyString ->
    OpenAPISpec.title (OpenAPISpec.info s) = "Vafast API") /\
   (forall t, supplied OpenAPIInfo.title = Some t -> t <> EmptyString ->
    OpenAPISpec.title (OpenAPISpec.info s) = t)) /\
  ((supplied OpenAPIInfo.description = None \/
    supplied OpenAPIInfo.description = Some EmptyString ->
    OpenAPISpec.description (OpenAPISpec.info s) = "API documentation") /\
   (forall t, supplied OpenAPIInfo.description = Some t -> t <> EmptyString ->
    OpenAPISpec.description (OpenAPISpec.info s) = t)) /\
  ((supplied OpenAPIInfo.version = None \/ supplied OpenAPIInfo.version = Some EmptyString ->
    OpenAPISpec.version (OpenAPISpec.info s) = "1.0.0") /\
   (forall t, supplied OpenAPIInfo.version = Some t -> t <> EmptyString ->
    OpenAPISpec.version (OpenAPISpec.info s) = t)) /\
  ((OpenAPIDocumentation.paths doc = None -> OpenAPISpec.paths s = JS.VObject []) /\
   (forall v, OpenAPIDocumentation.paths doc = Some v -> JS.ToBoolean v = true ->
    OpenAPISpec.paths s = v)) /\
  ((OpenAPIDocumentation.components doc = None -> OpenAPISpec.components s = JS.VObject []) /\
   (forall v, OpenAPIDocumentation.components doc = Some v -> JS.ToBoolean v = true ->
    OpenAPISpec.components s = v)) /\
  ((OpenAPIDocumentation.tags doc = None -> OpenAPISpec.tags s = JS.VArray []) /\
   (forall v, OpenAPIDocumentation.tags doc = Some v -> JS.ToBoolean v = true ->
    OpenAPISpec.tags s = v)) /\
  (forall props elems l,
     JS.ToBoolean (JS.VObject props) = true /\ JS.ToBoolean (JS.VArray elems) = true /\
     JS.ToBoolean (JS.VRef l) = true) /\
  (forall d c p,
     let merged :=
       createOpenAPISpec
         (OpenAPIDocumentation.Build
            (Some (OpenAPIInfo.Build (Some "Custom API") d (Some "2.0.0")))
            (Some (JS.VArray [JS.VObject [("name", JS.VString "Users")]])) c p) in
     OpenAPISpec.title (OpenAPISpec.info merged) = "Custom API" /\
     OpenAPISpec.version (OpenAPISpec.info merged) = "2.0.0" /\
     exists tag, OpenAPISpec.tags merged = JS.VArray [tag]).
Proof.
  cbv zeta.
  repeat match goal with |- _ /\ _ => split end;
    try reflexivity;
    try apply opt_or_else_spec;
    try apply or_default_spec.
  - intros; repeat split.
  - intros d c p. cbv zeta. repeat split. eexists. reflexivity.
Qed.

Lemma createOpenAPISpec_fields_witness :
  let doc := OpenAPIDocumentation.Build
               (Some (OpenAPIInfo.Build (Some "Custom API") None (Some EmptyString)))
               (Some (JS.VArray [])) None (Some (JS.VRef 0)) in
  OpenAPISpec.title (OpenAPISpec.info (createOpenAPISpec doc)) = "Custom API" /\
  OpenAPISpec.description (OpenAPISpec.info (createOpenAPISpec doc)) = "API documentation" /\
  OpenAPISpec.version (OpenAPISpec.info (createOpenAPISpec doc)) = "1.0.0" /\
  OpenAPISpec.paths (createOpenAPISpec doc) = JS.VRef 0 /\
  OpenAPISpec.components (createOpenAPISpec doc) = JS.VObject [] /\
  OpenAPISpec.tags (createOpenAPISpec doc) = JS.VArray [].
Proof.
  intros doc.
  destruct (createOpenAPISpec_fields doc)
    as (_ & _ & _ & [_ Ht] & [Hd _] & [Hv _] & [_ Hp] & [Hc _] & [_ Hg] & _).
  refine (conj _ (conj _ (conj _ (conj _ (conj _ _))))).
  - apply Ht; [reflexivity | discriminate].
  - apply Hd; left; reflexivity.
  - apply Hv; right; reflexivity.
  - apply Hp; reflexivity.
  - apply Hc; reflexivity.
  - apply Hg; reflexivity.
Defined.

(** ** Configuration fields without effect *)

(** C6: the response of the middleware, and with it the document served at
    the spec path, does not depend on [excludeMethods] and [excludeTags];
    [paths] and [tags] of the document are the supplied objects themselves;
    with tags Public and Private and [excludeTags] naming Private, the served
    document still lists both tags. *)
Theorem excludes_have_no_effect (World : Type) (h : JS.heap) (cfg : Config.t)
    (ms ts : option (list string)) (req : Request) (next : Handler World) (w : World) :
  swagger h (set_excludes ms ts cfg) req next w = swagger h cfg req next w /\
  (forall i c props elems,
     let s := createOpenAPISpec
                (OpenAPIDocumentation.Build i (Some (JS.VArray elems)) c
                                            (Some (JS.VObject props))) in
     OpenAPISpec.paths s = JS.VObject props /\ OpenAPISpec.tags s = JS.VArray elems) /\
  (let tags := JS.VArray
                 [ JS.VObject [("name", JS.VString "Public");
                               ("description", JS.VString "Public endpoints")];
                   JS.VObject [("name", JS.VString "Private");
                               ("description", JS.VString "Private endpoints")] ] in
   let doc := OpenAPIDocumentation.Build None (Some tags) None None in
   let cfg_tags :=
     Config.Build (Some scalar) None None None (Some doc) None None None None None None
                  None None None (Some ["Private"]) in
   exists r, swagger [] cfg_tags (GET "http://localhost/swagger/json") not_found 0
             = (Done (Fulfilled r), 0) /\
             exists j, Parse.JSON_parse (body r) = Some j /\ Parse.Get j "tags" = tags).
Proof.
  split; [reflexivity | split].
  - intros; split; reflexivity.
  - cbv zeta. eexists. split; [vm_compute; reflexivity|].
    eexists. split; vm_compute; reflexivity.
Qed.

(** C10: with the classic viewer, the response does not depend on [theme];
    the style sheet that the page links is the one of the configured
    [version]. *)
Theorem theme_has_no_effect (World : Type) (h : JS.heap) (cfg : Config.t)
    (th th' : option Theme) (req : Request) (next : Handler World) (w : World) :
  Config.provider cfg = Some swagger_ui ->
  swagger h (set_theme th cfg) req next w = swagger h (set_theme th' cfg) req next w /\
  (forall page,
     ui_page h (set_theme th cfg) = Done page ->
     Str.includes
       (Str.tpl "<link rel=`stylesheet` type=`text/css` href=`https://unpkg.com/swagger-ui-dist@"
          ++ default "4.18.2" (Config.version cfg) ++ Str.tpl "/swagger-ui.css` />")
       page = true).
Proof.
  intros Hp. split.
  - unfold swagger. simpl. rewrite Hp. reflexivity.
  - intros page. unfold ui_page.
    change (Config.provider (set_theme th cfg)) with (Config.provider cfg).
    rewrite Hp. cbn [default]. unfold renderSwaggerUI.
    destruct (Object_entries h _) as [entries| |]; cbn [bind]; try discriminate.
    destruct (map_outcome _ entries) as [options| |]; cbn [bind]; try discriminate.
    intros H. apply Done_inj in H. subst page.
    change (Config.version (set_theme th cfg)) with (Config.version cfg).
    set (title := Str.opt_or_else _ _). set (ver := default "4.18.2" _).
    match goal with
    | |- Str.includes ?m (?a ++ title ++ ?b ++ ver ++ ?c ++ ?rest) = true =>
        replace (a ++ title ++ b ++ ver ++ c ++ rest)
          with ((a ++ title ++ Str.tpl "</title>
    ") ++ m ++ Str.tpl "
    <style>
        html { box-sizing: border-box; overflow: -moz-scrollbars-vertical; overflow-y: scroll; }
        *, *:before, *:after { box-sizing: inherit; }
        body { margin:0; background: #fafafa; }
        " ++ rest)
    end.
    + apply includes_middle.
    + rewrite !append_assoc. reflexivity.
Qed.

Lemma theme_has_no_effect_witness :
  let cfg := Config.Build (Some swagger_ui) None None None None None None None None None
                          None None None None None in
  swagger [] (set_theme (Some (ThemeUrl "https://custom-theme.css")) cfg)
          (GET "http://localhost/swagger") not_found 0
  = swagger [] (set_theme None cfg) (GET "http://localhost/swagger") not_found 0.
Proof.
  intros cfg.
  exact (proj1 (theme_has_no_effect nat [] cfg (Some (ThemeUrl "https://custom-theme.css"))
                  None (GET "http://localhost/swagger") not_found 0 eq_refl)).
Defined.

(** ** Purity *)

(** C8: a request to the spec path does not invoke [next()] and leaves the
    world as it was, so that the same request issued again gets the same
    response, whatever happened in between; at a spec path that is not the
    UI path the response is determined by the documentation fragment alone:
    it is the same for every configuration with this fragment, every
    request, every continuation and every world. *)
Theorem spec_request_idempotent (World : Type) (h : JS.heap) (cfg : Config.t)
    (req : Request) (next : Handler World) (w : World) :
  URL.pathname (url req) = Done (spec_path cfg) ->
  let first := swagger h cfg req next w in
  let second := swagger h cfg req next (snd first) in
  fst second = fst first /\ snd first = w /\ snd second = w /\
  (forall (w2 : World), fst (swagger h cfg req next w2) = fst first) /\
  (forall (World' : Type) (cfg' : Config.t) (req' : Request)
          (next' : Handler World') (w' : World'),
     URL.pathname (url req') = Done (spec_path cfg') ->
     spec_path cfg' <> ui_path cfg' ->
     spec_path cfg <> ui_path cfg ->
     documentation_of cfg' = documentation_of cfg ->
     fst (swagger h cfg' req' next' w') = fst first).
Proof.
  intros Hp first second.
  assert (Hw : forall w0, snd (swagger h cfg req next w0) = w0
                          /\ fst (swagger h cfg req next w0) = fst first).
  { intros w0. unfold first.
    rewrite !(swagger_routes World h cfg req next _ _ Hp).
    rewrite String.eqb_refl.
    destruct (String.eqb (spec_path cfg) (ui_path cfg)); split; reflexivity. }
  assert (Hw1 : snd first = w) by apply Hw.
  split; [apply Hw | split; [exact Hw1 | split; [|split]]].
  - unfold second. rewrite Hw1. exact Hw1.
  - intros w2. apply Hw.
  - intros World' cfg' req' next' w' Hp' Hne' Hne Hdoc. unfold first.
    rewrite (swagger_routes World' h cfg' req' next' w' _ Hp').
    rewrite (swagger_routes World h cfg req next w _ Hp).
    rewrite !String.eqb_refl, (eqb_neq_false _ _ Hne'), (eqb_neq_false _ _ Hne), Hdoc.
    reflexivity.
Qed.

Lemma spec_request_idempotent_witness :
  let first := swagger [] Config.empty (GET "http://localhost/swagger/json") not_found 0 in
  fst (swagger [] Config.empty (GET "http://localhost/swagger/json") not_found (snd first))
  = fst first.
Proof.
  intros first.
  exact (proj1 (spec_request_idempotent nat [] Config.empty
                  (GET "http://localhost/swagger/json") not_found 0 eq_refl)).
Defined.

(** ** The page *)

Ltac find_in_segments :=
  first [ apply includes_app_l; vm_compute; reflexivity
        | apply includes_app_r; find_in_segments ].

Lemma map_outcome_done (A B : Type) (f : A -> outcome B) (xs : list A) :
  Forall (fun x => exists y, f x = Done y) xs ->
  exists ys, map_outcome f xs = Done ys.
Proof.
  induction 1 as [|x xs [y Hy] _ [ys Hys]]; simpl.
  - now eexists.
  - rewrite Hy, Hys. simpl. now eexists.
Qed.

Lemma completes_done (h : JS.heap) (v : JS.value) :
  completes h v = true -> exists text, JS.JSON_stringify h v = Done text.
Proof.
  unfold completes. destruct (JS.JSON_stringify h v); [now eexists | discriminate ..].
Qed.

(** A page of the reference viewer holds the id of its content element, the
    constant data-url, and the text of the configuration. *)
Lemma renderScalar_page (h : JS.heap) (info : OpenAPIInfo.t) (version : string)
    (config : JS.value) (cdn : string) (text : option string) :
  JS.JSON_stringify h config = Done text ->
  exists page,
    renderScalar h info version config cdn = Done page /\
    Str.includes "api-reference" page = true /\
    Str.includes (Str.tpl "<div id=`api-reference` data-url=`./json` data-configuration='"
                    ++ JS.interpolate text ++ "'></div>") page = true.
Proof.
  intros H. unfold renderScalar. rewrite H. cbn [bind].
  eexists. split; [reflexivity | split].
  - find_in_segments.
  - set (title := Str.opt_or_else _ _).
    match goal with
    | |- Str.includes ?m (?a ++ title ++ ?b ++ ?conf ++ ?c ++ ?rest) = true =>
        replace (a ++ title ++ b ++ conf ++ c ++ rest)
          with ((a ++ title ++ Str.tpl "</title>
    <style>
        body { margin: 0; font-family: -apple-system, BlinkMacSystemFont, 'Segoe UI', Roboto, sans-serif; }
        #api-reference { min-height: 100vh; }
    </style>
</head>
<body>
    ") ++ m ++ Str.tpl "
    <script src=`" ++ rest)
    end.
    + apply includes_middle.
    + rewrite !append_assoc. reflexivity.
Qed.

(** A page of the classic viewer holds the name of its script bundle. *)
Lemma renderSwaggerUI_page (h : JS.heap) (info : OpenAPIInfo.t) (version : string)
    (theme : Theme) (swaggerOptions : JS.value) (autoDarkMode : bool)
    (entries : list (string * JS.value)) :
  Object_entries h swaggerOptions = Done entries ->
  forallb (completes h) (map snd entries) = true ->
  exists page,
    renderSwaggerUI h info version theme swaggerOptions autoDarkMode = Done page /\
    Str.includes "swagger-ui-bundle.js" page = true.
Proof.
  intros He Hc. unfold renderSwaggerUI. rewrite He. cbn [bind].
  destruct (map_outcome_done _ _
              (fun kv : string * JS.value =>
                 let (key, value) := kv in
                 let* text := JS.JSON_stringify h value in
                 Done (key ++ ": " ++ JS.interpolate text)) entries) as [options Ho].
  { rewrite forallb_forall in Hc. apply Forall_forall. intros [k x] Hin.
    destruct (completes_done h x) as [text Ht].
    - apply Hc. change x with (snd (k, x)). now apply in_map.
    - rewrite Ht. cbn [bind]. now eexists. }
  rewrite Ho. cbn [bind]. eexists. split; [reflexivity|].
  find_in_segments.
Qed.

(** C4, as stated, fails: with a circular [scalarConfig] the request to the
    UI path throws instead of returning a page. *)
Lemma ui_request_may_throw :
  ~ (forall (h : JS.heap) (cfg : Config.t) (req : Request) (next : Handler nat) (w : nat),
       URL.pathname (url req) = Done (ui_path cfg) ->
       exists r, swagger h cfg req next w = (Done (Fulfilled r), w) /\ status r = 200%Z).
Proof.
  intros H.
  destruct (H [JS.VObject [("self", JS.VRef 0)]]
              (Config.Build (Some scalar) None None (Some (JS.VRef 0)) None None None None
                            None None None None None None None)
              (GET "http://localhost/swagger") not_found 0 eq_refl) as (r & Hr & _).
  vm_compute in Hr. discriminate Hr.
Qed.

(** The page is rendered when the values to serialise have a text. *)
Lemma ui_page_rendered (h : JS.heap) (cfg : Config.t) (opts : list JS.value) :
  serialised_options h cfg = Done opts ->
  forallb (completes h) opts = true ->
  exists page,
    ui_page h cfg = Done page /\
    Str.includes (marker (default scalar (Config.provider cfg))) page = true.
Proof.
  intros Ho Hc. unfold ui_page. unfold serialised_options in Ho.
  destruct (default scalar (Config.provider cfg)).
  - apply Done_inj in Ho. subst opts. cbn [forallb] in Hc.
    rewrite andb_true_r in Hc. destruct (completes_done h _ Hc) as [text Ht].
    destruct (renderScalar_page h
                (default OpenAPIInfo.empty (OpenAPIDocumentation.info (documentation_of cfg)))
                (default "latest" (Config.scalarVersion cfg)) _
                (default EmptyString (Config.scalarCDN cfg)) text Ht)
      as (page & Hpage & Hm & _).
    now exists page.
  - destruct (Object_entries h _) as [entries| |] eqn:He; cbn [bind] in Ho; try discriminate.
    apply Done_inj in Ho. subst opts.
    exact (renderSwaggerUI_page h
             (default OpenAPIInfo.empty (OpenAPIDocumentation.info (documentation_of cfg)))
             (default "4.18.2" (Config.version cfg))
             (default (ThemeUrl ("https://unpkg.com/swagger-ui-dist@"
                                   ++ default "4.18.2" (Config.version cfg)
                                   ++ "/swagger-ui.css")) (Config.theme cfg))
             _ (default true (Config.autoDarkMode cfg)) entries He Hc).
Qed.

(** C4 (amended): when [JSON.stringify] completes on the values that the
    selected renderer serialises, a request to the UI path is answered, without
    invoking [next()], with status 200, content-type text/html and a body
    that holds the marker of the provider. *)
Theorem ui_request_page (World : Type) (h : JS.heap) (cfg : Config.t)
    (req : Request) (next : Handler World) (w : World) (opts : list JS.value) :
  URL.pathname (url req) = Done (ui_path cfg) ->
  serialised_options h cfg = Done opts ->
  forallb (completes h) opts = true ->
  exists page,
    swagger h cfg req next w
    = (Done (Fulfilled {| status := 200; content_type := "text/html"; body := page |}), w) /\
    Str.includes (marker (default scalar (Config.provider cfg))) page = true.
Proof.
  intros Hp Ho Hc.
  destruct (ui_page_rendered h cfg opts Ho Hc) as (page & Hpage & Hm).
  exists page. split; [|exact Hm].
  rewrite (swagger_routes World h cfg req next w _ Hp), String.eqb_refl, Hpage.
  reflexivity.
Qed.

Lemma ui_request_page_witness :
  let cfg := Config.Build (Some swagger_ui) None None None None None None None None None
               (Some (JS.VObject [("persistAuthorization", JS.VBoolean true)]))
               None None None None in
  exists page,
    swagger [] cfg (GET "http://localhost/swagger") not_found 0
    = (Done (Fulfilled {| status := 200; content_type := "text/html"; body := page |}), 0) /\
    Str.includes "swagger-ui-bundle.js" page = true.
Proof.
  intros cfg.
  exact (ui_request_page nat [] cfg (GET "http://localhost/swagger") not_found 0
           [JS.VBoolean true] eq_refl eq_refl eq_refl).
Defined.

(** C5: the content element of the reference viewer carries the text of the
    configuration in data-configuration, but its data-url is the constant
    ./json whatever the configured spec path is.  With [path] /api-docs and
    [specPath] /api-docs/spec the page served at /api-docs names ./json, which
    a browser resolves to /json: a path that the middleware hands to
    [next()], while the document is served at /api-docs/spec. *)
Theorem scalar_data_url_is_constant :
  (forall h cfg sp, ui_page h (set_specPath sp cfg) = ui_page h cfg) /\
  (forall h info version config cdn,
     match JS.JSON_stringify h config with
     | Done text =>
         exists page,
           renderScalar h info version config cdn = Done page /\
           Str.includes
             (Str.tpl "<div id=`api-reference` data-url=`./json` data-configuration='"
                ++ JS.interpolate text ++ "'></div>") page = true
     | Throw e => renderScalar h info version config cdn = Throw e
     | Stuck => renderScalar h info version config cdn = Stuck
     end) /\
  (let cfg :=
     Config.Build (Some scalar) None None None None None None
                  (Some "/api-docs") (Some "/api-docs/spec")
                  None None None None None None in
   exists page,
     swagger [] cfg (GET "http://localhost/api-docs") not_found 0
     = (Done (Fulfilled (htmlResponse page)), 0) /\
     Str.includes (Str.tpl "data-url=`./json`") page = true /\
     Str.includes "/api-docs/spec" page = false /\
     spec_path cfg = "/api-docs/spec" /\
     resolve_dot (ui_path cfg) "json" = "/json" /\
     swagger [] cfg (GET "http://localhost/json") not_found 0 = not_found 0 /\
     exists r, swagger [] cfg (GET "http://localhost/api-docs/spec") not_found 0
               = (Done (Fulfilled r), 0) /\ content_type r = "application/json").
Proof.
  split; [reflexivity | split].
  - intros h info version config cdn.
    destruct (JS.JSON_stringify h config) as [text| |] eqn:H.
    + destruct (renderScalar_page h info version config cdn text H) as (page & Hp & _ & Hm).
      now exists page.
    + unfold renderScalar. now rewrite H.
    + unfold renderScalar. now rewrite H.
  - cbv zeta. eexists.
    split; [vm_compute; reflexivity|].
    repeat (split; [vm_compute; reflexivity|]).
    eexists. split; vm_compute; reflexivity.
Qed.

(** ** [JSON.stringify] and the object graph *)

Section ValueInduction.

Import JS.

Variable P : value -> Prop.
Hypothesis P_undefined : P VUndefined.
Hypothesis P_null : P VNull.
Hypothesis P_boolean : forall b, P (VBoolean b).
Hypothesis P_number : forall n, P (VNumber n).
Hypothesis P_bigint : forall z, P (VBigInt z).
Hypothesis P_string : forall s, P (VString s).
Hypothesis P_function : P VFunction.
Hypothesis P_object :
  forall props, Forall (fun kv => P (snd kv)) props -> P (VObject props).
Hypothesis P_array : forall elems, Forall P elems -> P (VArray elems).
Hypothesis P_ref : forall l, P (VRef l).

(** Induction on a value, with the property at hand for every property
    value and every element. *)
Lemma value_ind' : forall v, P v.
Proof.
  fix IH 1. intros [ | | b | n | z | s | | props | elems | l].
  - exact P_undefined.
  - exact P_null.
  - apply P_boolean.
  - apply P_number.
  - apply P_bigint.
  - apply P_string.
  - exact P_function.
  - apply P_object.
    induction props as [|[k x] ps IHps]; constructor; [apply IH | exact IHps].
  - apply P_array.
    induction elems as [|x es IHes]; constructor; [apply IH | exact IHes].
  - apply P_ref.
Qed.

End ValueInduction.

Lemma ser_value_object at_ref stack props :
  JS.ser_value at_ref stack (JS.VObject props)
  = let* partial := Loops.ser_members (JS.ser_value at_ref stack) props in
    Done (Some ("{" ++ Str.join "," partial ++ "}")).
Proof. reflexivity. Qed.

Lemma ser_value_array at_ref stack elems :
  JS.ser_value at_ref stack (JS.VArray elems)
  = let* partial := Loops.ser_elements (JS.ser_value at_ref stack) elems in
    Done (Some ("[" ++ Str.join "," partial ++ "]")).
Proof. reflexivity. Qed.

Lemma ser_fuel_S fuel h stack v :
  JS.ser_fuel (S fuel) h stack v = JS.ser_value (Loops.ser_ref fuel h) stack v.
Proof. reflexivity. Qed.

Section Stringify.

Import JS Graph Tree Loops.

Variable h : heap.

(** *** The serialiser always has an answer *)

Lemma ser_members_not_stuck f ps :
  Forall (fun kv : string * value => f (snd kv) <> Stuck) ps ->
  ser_members f ps <> Stuck.
Proof.
  induction 1 as [|[k x] ps Hx _ IH]; simpl; [discriminate|].
  simpl in Hx. destruct (f x); simpl; [|discriminate|contradiction].
  destruct (ser_members f ps); simpl; [discriminate|discriminate|contradiction].
Qed.

Lemma ser_elements_not_stuck f es :
  Forall (fun x : value => f x <> Stuck) es ->
  ser_elements f es <> Stuck.
Proof.
  induction 1 as [|x es Hx _ IH]; simpl; [discriminate|].
  destruct (f x); simpl; [|discriminate|contradiction].
  destruct (ser_elements f es); simpl; [discriminate|discriminate|contradiction].
Qed.

Lemma ser_value_not_stuck at_ref stack v :
  (forall l, refs_ok h (VRef l) = true -> at_ref stack l <> Stuck) ->
  refs_ok h v = true ->
  ser_value at_ref stack v <> Stuck.
Proof.
  intros Href.
  induction v as [ | | b | n | z | s | | props IH | elems IH | l] using value_ind';
    intros Hok; try (simpl; discriminate).
  - destruct b; simpl; discriminate.
  - destruct n; simpl; discriminate.
  - rewrite ser_value_object.
    assert (Hm : ser_members (ser_value at_ref stack) props <> Stuck).
    { apply ser_members_not_stuck. simpl in Hok. rewrite forallb_forall in Hok.
      rewrite Forall_forall in *. intros [k x] Hin. apply (IH _ Hin).
      exact (Hok _ Hin). }
    destruct (ser_members _ props); simpl; [discriminate|discriminate|contradiction].
  - rewrite ser_value_array.
    assert (Hm : ser_elements (ser_value at_ref stack) elems <> Stuck).
    { apply ser_elements_not_stuck. simpl in Hok. rewrite forallb_forall in Hok.
      rewrite Forall_forall in *. intros x Hin. apply (IH _ Hin).
      exact (Hok _ Hin). }
    destruct (ser_elements _ elems); simpl; [discriminate|discriminate|contradiction].
  - simpl. now apply Href.
Qed.

Lemma bounded_nodup_length (stack : list nat) (n : nat) :
  NoDup stack -> (forall l, In l stack -> l < n) -> length stack <= n.
Proof.
  intros Hnd Hb. rewrite <- (length_seq n 0).
  apply NoDup_incl_length; [assumption|].
  intros l Hl. apply in_seq. specialize (Hb l Hl). lia.
Qed.

Lemma existsb_eqb_false l stack : existsb (Nat.eqb l) stack = false -> ~ In l stack.
Proof.
  intros He Hin. assert (existsb (Nat.eqb l) stack = true); [|congruence].
  apply existsb_exists. exists l. split; [assumption | apply Nat.eqb_refl].
Qed.

Lemma existsb_eqb_true l stack : existsb (Nat.eqb l) stack = true -> In l stack.
Proof.
  intros He. apply existsb_exists in He. destruct He as (x & Hin & Heq).
  apply Nat.eqb_eq in Heq. now subst.
Qed.

Lemma heap_ok_cell l o : heap_ok h = true -> nth_error h l = Some o -> refs_ok h o = true.
Proof.
  unfold heap_ok. rewrite forallb_forall. intros H Hn. apply H.
  exact (nth_error_In h l Hn).
Qed.

Lemma ser_fuel_not_stuck fuel :
  forall stack v,
    heap_ok h = true ->
    refs_ok h v = true ->
    NoDup stack ->
    (forall l, In l stack -> l < length h) ->
    length h < fuel + length stack ->
    ser_fuel fuel h stack v <> Stuck.
Proof.
  induction fuel as [|fuel IH]; intros stack v Hh Hv Hnd Hb Hlen.
  - pose proof (bounded_nodup_length stack (length h) Hnd Hb). simpl in Hlen. lia.
  - rewrite ser_fuel_S. apply ser_value_not_stuck; [|assumption].
    intros l Hl. unfold ser_ref.
    destruct (existsb (Nat.eqb l) stack) eqn:He; [discriminate|].
    simpl in Hl. destruct (nth_error h l) as [o|] eqn:Hn; [|discriminate].
    assert (Ho : refs_ok h o = true) by exact (heap_ok_cell l o Hh Hn).
    assert (Hlt : l < length h) by (apply nth_error_Some; congruence).
    assert (Hnd' : NoDup (l :: stack))
      by (constructor; [now apply existsb_eqb_false | assumption]).
    assert (Hb' : forall l', In l' (l :: stack) -> l' < length h)
      by (intros l' [<- | Hin]; auto).
    destruct o; try discriminate; apply IH; auto; simpl; lia.
Qed.

(** *** A text is only given for a finite tree *)

Lemma ser_members_done f ps r :
  ser_members f ps = Done r ->
  Forall (fun kv : string * value => exists s, f (snd kv) = Done s) ps.
Proof.
  revert r. induction ps as [|[k x] ps IH]; simpl; intros r H; [constructor|].
  destruct (f x) as [s| |] eqn:Hx; simpl in H; try discriminate.
  destruct (ser_members f ps) as [rest| |] eqn:Hr; simpl in H; try discriminate.
  constructor; [now exists s | exact (IH rest eq_refl)].
Qed.

Lemma ser_elements_done f es r :
  ser_elements f es = Done r ->
  Forall (fun x : value => exists s, f x = Done s) es.
Proof.
  revert r. induction es as [|x es IH]; simpl; intros r H; [constructor|].
  destruct (f x) as [s| |] eqn:Hx; simpl in H; try discriminate.
  destruct (ser_elements f es) as [rest| |] eqn:Hr; simpl in H; try discriminate.
  constructor; [now exists s | exact (IH rest eq_refl)].
Qed.

Lemma ser_value_finite at_ref stack v :
  (forall l r, at_ref stack l = Done r -> finite h (VRef l)) ->
  forall r, ser_value at_ref stack v = Done r -> finite h v.
Proof.
  intros Href.
  induction v as [ | | b | n | z | s | | props IH | elems IH | l] using value_ind';
    intros r Hr; try (apply finite_leaf; reflexivity); try (simpl in Hr; discriminate Hr).
  - rewrite ser_value_object in Hr.
    destruct (ser_members _ props) as [partial| |] eqn:Hm; try discriminate.
    apply ser_members_done in Hm. apply finite_object. intros k x Hin.
    rewrite Forall_forall in IH, Hm.
    destruct (Hm _ Hin) as [s Hs]. exact (IH _ Hin s Hs).
  - rewrite ser_value_array in Hr.
    destruct (ser_elements _ elems) as [partial| |] eqn:Hm; try discriminate.
    apply ser_elements_done in Hm. apply finite_array. intros x Hin.
    rewrite Forall_forall in IH, Hm.
    destruct (Hm _ Hin) as [s Hs]. exact (IH _ Hin s Hs).
  - exact (Href l r Hr).
Qed.

Lemma ser_fuel_finite fuel :
  forall stack v r, ser_fuel fuel h stack v = Done r -> finite h v.
Proof.
  induction fuel as [|fuel IH]; intros stack v r Hr; [discriminate|].
  rewrite ser_fuel_S in Hr.
  apply (ser_value_finite (ser_ref fuel h) stack v) with (r := r); [|assumption].
  intros l r' Hl. unfold ser_ref in Hl.
  destruct (existsb (Nat.eqb l) stack); [discriminate|].
  destruct (nth_error h l) as [o|] eqn:Hn; [|discriminate].
  destruct o; try discriminate; (eapply finite_ref; [exact Hn | exact (IH _ _ _ Hl)]).
Qed.

Lemma finite_good v :
  finite h v ->
  forall x, reaches h v x -> (forall z, x <> VBigInt z) /\ ~ on_cycle h x.
Proof.
  induction 1 as [v Hleaf | props _ IH | elems _ IH | l o Hn _ IH]; intros x Hr.
  - inversion Hr as [|? c ? He]; subst.
    + split; [intros z ->; discriminate|].
      intros (y & He & _). inversion He; subst; discriminate.
    + inversion He; subst; discriminate.
  - inversion Hr as [|? c ? He Hc]; subst.
    + split; [discriminate|]. intros (y & He & Hback).
      inversion He as [? k ? Hin| |]; subst.
      apply (IH k y Hin _ Hback). now exists y.
    + inversion He as [? k ? Hin| |]; subst. exact (IH k c Hin x Hc).
  - inversion Hr as [|? c ? He Hc]; subst.
    + split; [discriminate|]. intros (y & He & Hback).
      inversion He as [|? ? Hin|]; subst.
      apply (IH y Hin _ Hback). now exists y.
    + inversion He as [|? ? Hin|]; subst. exact (IH c Hin x Hc).
  - inversion Hr as [|? c ? He Hc]; subst.
    + split; [discriminate|]. intros (y & He & Hback).
      inversion He as [| |? ? Hn']; subst.
      assert (y = o) by congruence. subst y.
      apply (IH _ Hback). now exists o.
    + inversion He as [| |? ? Hn']; subst.
      assert (c = o) by congruence. subst c. exact (IH x Hc).
Qed.

Lemma finite_serialisable v : finite h v -> ~ unserialisable h v.
Proof.
  intros Hf [(x & Hr & Hc) | (z & Hr)].
  - exact (proj2 (finite_good v Hf x Hr) Hc).
  - exact (proj1 (finite_good v Hf _ Hr) z eq_refl).
Qed.

(** *** An exception comes from a BigInt or from a cycle *)

Lemma blocked_edge stack v c : edge h v c -> blocked h stack c -> blocked h stack v.
Proof.
  intros He [(z & Hz) | [(x & Hx & Hc) | (l & Hl & Hr)]].
  - left. exists z. now apply reaches_step with c.
  - right; left. exists x. split; [now apply reaches_step with c | assumption].
  - right; right. exists l. split; [assumption | now apply reaches_step with c].
Qed.

Lemma ser_members_throw f ps e :
  ser_members f ps = Throw e ->
  Exists (fun kv : string * value => f (snd kv) = Throw e) ps.
Proof.
  induction ps as [|[k x] ps IH]; simpl; intros H; [discriminate|].
  destruct (f x) as [s| |] eqn:Hx; simpl in H; try discriminate.
  - destruct (ser_members f ps) as [rest| |] eqn:Hr; simpl in H; try discriminate.
    right. apply IH. congruence.
  - left. simpl. congruence.
Qed.

Lemma ser_elements_throw f es e :
  ser_elements f es = Throw e ->
  Exists (fun x : value => f x = Throw e) es.
Proof.
  induction es as [|x es IH]; simpl; intros H; [discriminate|].
  destruct (f x) as [s| |] eqn:Hx; simpl in H; try discriminate.
  - destruct (ser_elements f es) as [rest| |] eqn:Hr; simpl in H; try discriminate.
    right. apply IH. congruence.
  - left. congruence.
Qed.

Lemma ser_value_throw at_ref stack v :
  (forall l e, at_ref stack l = Throw e ->
               exn_name e = "TypeError" /\ blocked h stack (VRef l)) ->
  forall e, ser_value at_ref stack v = Throw e ->
            exn_name e = "TypeError" /\ blocked h stack v.
Proof.
  intros Href.
  induction v as [ | | b | n | z | s | | props IH | elems IH | l] using value_ind';
    intros e He; try discriminate.
  - destruct b; discriminate.
  - destruct n; discriminate.
  - simpl in He. injection He as <-. split; [reflexivity|].
    left. exists z. constructor.
  - rewrite ser_value_object in He.
    destruct (ser_members _ props) as [partial| |] eqn:Hm; try discriminate.
    simpl in He. injection He as <-. apply ser_members_throw in Hm.
    apply Exists_exists in Hm. destruct Hm as ([k x] & Hin & Hx).
    rewrite Forall_forall in IH. destruct (IH _ Hin _ Hx) as [Hname Hb].
    split; [assumption|]. apply blocked_edge with x; [|assumption].
    now apply edge_prop with k.
  - rewrite ser_value_array in He.
    destruct (ser_elements _ elems) as [partial| |] eqn:Hm; try discriminate.
    simpl in He. injection He as <-. apply ser_elements_throw in Hm.
    apply Exists_exists in Hm. destruct Hm as (x & Hin & Hx).
    rewrite Forall_forall in IH. destruct (IH _ Hin _ Hx) as [Hname Hb].
    split; [assumption|]. apply blocked_edge with x; [|assumption].
    now apply edge_elem.
  - exact (Href l e He).
Qed.

Lemma ser_fuel_throw fuel :
  forall stack v e,
    ser_fuel fuel h stack v = Throw e ->
    exn_name e = "TypeError" /\ blocked h stack v.
Proof.
  induction fuel as [|fuel IH]; intros stack v e He; [discriminate|].
  rewrite ser_fuel_S in He.
  apply (ser_value_throw (ser_ref fuel h) stack v); [|assumption].
  clear v e He. intros l e Hl. unfold ser_ref in Hl.
  destruct (existsb (Nat.eqb l) stack) eqn:Hs.
  - injection Hl as <-. split; [reflexivity|].
    right; right. exists l. split; [now apply existsb_eqb_true | constructor].
  - destruct (nth_error h l) as [o|] eqn:Hn; [|discriminate].
    assert (Ho : ser_fuel fuel h (l :: stack) o = Throw e)
      by (destruct o; try discriminate; assumption).
    destruct (IH _ _ _ Ho) as [Hname Hb]. split; [assumption|].
    assert (He : edge h (VRef l) o) by now constructor.
    destruct Hb as [Hz | [Hc | (l' & [<- | Hin] & Hr)]].
    + apply blocked_edge with o; [assumption | now left].
    + apply blocked_edge with o; [assumption | now right; left].
    + right; left. exists (VRef l). split; [constructor|]. now exists o.
    + apply blocked_edge with o; [assumption|]. right; right. now exists l'.
Qed.

(** *** [JSON.stringify] throws exactly on a cycle or a BigInt *)

Lemma JSON_stringify_spec v :
  heap_ok h = true ->
  refs_ok h v = true ->
  (unserialisable h v ->
   exists e, JSON_stringify h v = Throw e /\ exn_name e = "TypeError") /\
  (~ unserialisable h v -> exists text, JSON_stringify h v = Done text).
Proof.
  intros Hh Hv. unfold JSON_stringify.
  destruct (ser_fuel (S (length h)) h [] v) as [text|e|] eqn:Hs.
  - split; [|now exists text]. intros Hu. exfalso.
    exact (finite_serialisable v (ser_fuel_finite _ _ _ _ Hs) Hu).
  - destruct (ser_fuel_throw _ _ _ _ Hs) as [Hname Hb].
    split; [now exists e|]. intros Hn. exfalso. apply Hn.
    destruct Hb as [Hz | [Hc | (l & [] & _)]]; [now right | now left].
  - exfalso. apply (ser_fuel_not_stuck (S (length h)) [] v); auto.
    + constructor.
    + intros l [].
    + simpl. lia.
Qed.

End Stringify.

Lemma JSON_stringify_cases (h : JS.heap) (v : JS.value) :
  Graph.heap_ok h = true ->
  Graph.refs_ok h v = true ->
  (exists text, JS.JSON_stringify h v = Done text /\ ~ Graph.unserialisable h v) \/
  (exists e, JS.JSON_stringify h v = Throw e /\ exn_name e = "TypeError"
             /\ Graph.unserialisable h v).
Proof.
  intros Hh Hv. destruct (JSON_stringify_spec h v Hh Hv) as [Hthrow Hdone].
  destruct (JS.JSON_stringify h v) as [text|e|] eqn:Hs.
  - left. exists text. split; [reflexivity|]. intros Hu.
    destruct (Hthrow Hu) as (e & He & _). discriminate He.
  - right. exists e. split; [reflexivity|].
    destruct (ser_fuel_throw h _ _ _ _ Hs) as [Hname Hb]. split; [assumption|].
    destruct Hb as [Hz | [Hc | (l & [] & _)]]; [now right | now left].
  - exfalso. apply (ser_fuel_not_stuck h (S (length h)) [] v); auto.
    + constructor.
    + intros l [].
    + simpl. lia.
Qed.

(** A member whose value is a function has no text and is left out. *)
Lemma JSON_stringify_drops_function (h : JS.heap) (k : string)
    (props : list (string * JS.value)) :
  JS.JSON_stringify h (JS.VObject ((k, JS.VFunction) :: props))
  = JS.JSON_stringify h (JS.VObject props).
Proof.
  unfold JS.JSON_stringify. rewrite !ser_fuel_S, !ser_value_object.
  cbn [Loops.ser_members JS.ser_value bind].
  now destruct (Loops.ser_members _ props).
Qed.

(** The entries of [swaggerOptions] are serialised in order: the first one
    without a text ends the rendering. *)
Lemma swagger_options_throw (h : JS.heap) (entries : list (string * JS.value)) :
  Graph.heap_ok h = true ->
  forallb (Graph.refs_ok h) (map snd entries) = true ->
  Exists (Graph.unserialisable h) (map snd entries) ->
  exists e,
    map_outcome
      (fun kv : string * JS.value =>
         let (key, value) := kv in
         let* text := JS.JSON_stringify h value in
         Done (key ++ ": " ++ JS.interpolate text))
      entries = Throw e /\ exn_name e = "TypeError".
Proof.
  intros Hh. induction entries as [|[k x] entries IH];
    cbn [map_outcome map snd forallb]; intros Hok Hex.
  - inversion Hex.
  - apply andb_true_iff in Hok. destruct Hok as [Hx Hrest].
    destruct (JSON_stringify_cases h x Hh Hx) as [(text & Ht & Hn) | (e & He & Hname & _)].
    + rewrite Ht. cbn [bind].
      inversion Hex as [? ? Hu | ? ? Hu]; subst; [contradiction|].
      destruct (IH Hrest Hu) as (e & He & Hname). rewrite He. now exists e.
    + rewrite He. now exists e.
Qed.

Lemma not_unserialisable_completes (h : JS.heap) (opts : list JS.value) :
  Graph.heap_ok h = true ->
  forallb (Graph.refs_ok h) opts = true ->
  ~ Exists (Graph.unserialisable h) opts ->
  forallb (completes h) opts = true.
Proof.
  intros Hh Hok Hn. apply forallb_forall. intros x Hin.
  rewrite forallb_forall in Hok.
  destruct (JSON_stringify_cases h x Hh (Hok x Hin)) as [(text & Ht & _) | (e & _ & _ & Hu)].
  - unfold completes. now rewrite Ht.
  - exfalso. apply Hn. apply Exists_exists. now exists x.
Qed.

(** C9, as stated, fails: a function among the options is no error; the
    request is answered with a page from which the option is missing. *)
Lemma function_option_is_no_error :
  ~ (forall (h : JS.heap) (cfg : Config.t) (req : Request) (next : Handler nat) (w : nat)
            (v : JS.value),
       URL.pathname (url req) = Done (ui_path cfg) ->
       Config.scalarConfig cfg = Some v \/ Config.swaggerOptions cfg = Some v ->
       Graph.holds_function h v \/ Graph.unserialisable h v ->
       exists e, swagger h cfg req next w = (Throw e, w)).
Proof.
  intros H.
  destruct (H [] (Config.Build (Some scalar) None None
                    (Some (JS.VObject [("onLoaded", JS.VFunction)]))
                    None None None None None None None None None None None)
              (GET "http://localhost/swagger") not_found 0
              (JS.VObject [("onLoaded", JS.VFunction)]) eq_refl (or_introl eq_refl))
    as (e & He).
  - left. apply Graph.reaches_step with JS.VFunction; [|constructor].
    apply Graph.edge_prop with "onLoaded". now left.
  - vm_compute in He. discriminate He.
Qed.

(** C9 (amended): when a value that the selected renderer serialises holds
    a circular reference or a BigInt, the request to the UI path fails with
    the TypeError of [JSON.stringify] and [next()] is not invoked; when none
    does, the request is answered with status 200.  A function is not an
    error: [JSON.stringify] has no text for it and leaves a member with
    such a value out of the text of its object. *)
Theorem ui_request_unserialisable (World : Type) (h : JS.heap) (cfg : Config.t)
    (req : Request) (next : Handler World) (w : World) (opts : list JS.value) :
  URL.pathname (url req) = Done (ui_path cfg) ->
  Graph.heap_ok h = true ->
  serialised_options h cfg = Done opts ->
  forallb (Graph.refs_ok h) opts = true ->
  (Exists (Graph.unserialisable h) opts ->
   exists e, swagger h cfg req next w = (Throw e, w) /\ exn_name e = "TypeError") /\
  (~ Exists (Graph.unserialisable h) opts ->
   exists r, swagger h cfg req next w = (Done (Fulfilled r), w) /\ status r = 200%Z) /\
  JS.JSON_stringify h JS.VFunction = Done None /\
  (forall k props,
     JS.JSON_stringify h (JS.VObject ((k, JS.VFunction) :: props))
     = JS.JSON_stringify h (JS.VObject props)).
Proof.
  intros Hp Hh Ho Hok.
  split; [|split; [|split; [reflexivity | apply JSON_stringify_drops_function]]].
  - intros Hex.
    rewrite (swagger_routes World h cfg req next w _ Hp), String.eqb_refl.
    unfold ui_page. unfold serialised_options in Ho.
    destruct (default scalar (Config.provider cfg)).
    + apply Done_inj in Ho. subst opts. cbn [forallb] in Hok.
      rewrite andb_true_r in Hok.
      inversion Hex as [? ? Hu | ? ? Hu]; subst; [|inversion Hu].
      destruct (JSON_stringify_cases h _ Hh Hok) as [(text & _ & Hn) | (e & He & Hname & _)];
        [contradiction|].
      exists e. unfold renderScalar. rewrite He. now split.
    + destruct (Object_entries h _) as [entries| |] eqn:He; cbn [bind] in Ho; try discriminate.
      apply Done_inj in Ho. subst opts.
      destruct (swagger_options_throw h entries Hh Hok Hex) as (e & Hm & Hname).
      exists e. unfold renderSwaggerUI. rewrite He. cbn [bind]. rewrite Hm. now split.
  - intros Hn.
    destruct (ui_page_rendered h cfg opts Ho
                (not_unserialisable_completes h opts Hh Hok Hn)) as (page & Hpage & _).
    exists (htmlResponse page).
    rewrite (swagger_routes World h cfg req next w _ Hp), String.eqb_refl, Hpage.
    split; reflexivity.
Qed.

Lemma ui_request_unserialisable_witness :
  let h := [JS.VObject [("self", JS.VRef 0)]] in
  let cfg := Config.Build (Some scalar) None None (Some (JS.VRef 0)) None None None None
                          None None None None None None None in
  exists e, swagger h cfg (GET "http://localhost/swagger") not_found 0 = (Throw e, 0)
            /\ exn_name e = "TypeError".
Proof.
  intros h cfg.
  apply (proj1 (ui_request_unserialisable nat h cfg (GET "http://localhost/swagger")
                  not_found 0 [JS.VRef 0] eq_refl eq_refl eq_refl eq_refl)).
  left. left. exists (JS.VRef 0). split; [constructor|].
  exists (JS.VObject [("self", JS.VRef 0)]). split.
  - now constructor.
  - apply Graph.reaches_step with (JS.VRef 0); [|constructor].
    apply Graph.edge_prop with "self". now left.
Defined.

(** ** [JSON.parse] reads back what [JSON.stringify] writes *)

Section RoundTripStrings.

Import JS Parse.

(** An escaped character is read back as the character. *)
Lemma parse_chars_quote_char (c : ascii) (t : string) :
  parse_chars (quote_char c ++ t) = cons_char c (parse_chars t).
Proof.
  destruct c as [[] [] [] [] [] [] [] []]; reflexivity.
Qed.

Lemma parse_chars_quote_chars (s rest : string) :
  parse_chars (quote_chars s ++ String Str.dq rest) = Some (s, rest).
Proof.
  induction s as [|c s IH]; [reflexivity|].
  cbn [quote_chars]. rewrite append_assoc, parse_chars_quote_char, IH. reflexivity.
Qed.

Lemma QuoteJSONString_app (s rest : string) :
  QuoteJSONString s ++ rest = String Str.dq (quote_chars s ++ String Str.dq rest).
Proof.
  unfold QuoteJSONString. cbn [append]. now rewrite append_assoc.
Qed.

End RoundTripStrings.

Section RoundTripNumbers.

Import JS Parse RoundTrip.

Lemma span_digits_uint (d : Decimal.uint) (rest : string) :
  follows_number rest = true ->
  span_digits (NilEmpty.string_of_uint d ++ rest) = (NilEmpty.string_of_uint d, rest).
Proof.
  intros Hrest.
  induction d as [|d IH|d IH|d IH|d IH|d IH|d IH|d IH|d IH|d IH|d IH];
    cbn [NilEmpty.string_of_uint append span_digits];
    try (change (is_digit _) with true; cbn iota; rewrite IH; reflexivity).
  destruct rest as [|c r]; [reflexivity|].
  cbn [span_digits]. simpl in Hrest. now destruct (is_digit c).
Qed.

Lemma int_of_string_Z_to_string (z : Z) :
  NilZero.int_of_string (Z_to_string z) = Some (Z.to_int z).
Proof.
  unfold Z_to_string. apply NilZero.isi; destruct z; simpl; try discriminate;
    intros H; injection H; apply DecimalPos.Unsigned.to_uint_nonnil.
Qed.

Lemma parse_number_split (s lit rest : string) (z : Z) :
  match s with
  | String "-" r => let (ds, rest) := span_digits r in (String "-" ds, rest)
  | _ => span_digits s
  end = (lit, rest) ->
  lit = Z_to_string z ->
  parse_number s = Some (z, rest).
Proof.
  intros Hsplit ->. unfold parse_number. rewrite Hsplit.
  rewrite int_of_string_Z_to_string, DecimalZ.of_to, String.eqb_refl, orb_true_r.
  reflexivity.
Qed.

Lemma string_of_uint_nonnil (d : Decimal.uint) :
  d <> Decimal.Nil -> NilZero.string_of_uint d = NilEmpty.string_of_uint d.
Proof.
  destruct d; [contradiction | reflexivity ..].
Qed.

(** The digits of a number: not empty, and a digit first. *)
Lemma uint_head (d : Decimal.uint) :
  d <> Decimal.Nil ->
  exists c r, NilEmpty.string_of_uint d = String c r /\ is_digit c = true.
Proof.
  destruct d; [contradiction | | | | | | | | | |]; intros _;
    cbn [NilEmpty.string_of_uint]; eexists; eexists; (split; [reflexivity | reflexivity]).
Qed.

Lemma digit_not_minus (c : ascii) : is_digit c = true -> c <> "-"%char.
Proof.
  intros H ->. discriminate H.
Qed.

Lemma digit_starts_number (c : ascii) : is_digit c = true -> starts_other c = false.
Proof.
  destruct c as [[] [] [] [] [] [] [] []]; intros H; try discriminate H; reflexivity.
Qed.

Lemma parse_number_digits (d : Decimal.uint) (rest : string) (z : Z) :
  d <> Decimal.Nil ->
  follows_number rest = true ->
  NilEmpty.string_of_uint d = Z_to_string z ->
  parse_number (NilEmpty.string_of_uint d ++ rest) = Some (z, rest).
Proof.
  intros Hd Hrest Hz.
  apply parse_number_split with (lit := NilEmpty.string_of_uint d); [|assumption].
  rewrite <- (span_digits_uint d rest Hrest).
  destruct (uint_head d Hd) as (c & r & Heq & Hc). rewrite Heq. cbn [append].
  pose proof (digit_not_minus c Hc) as Hm.
  destruct c as [[] [] [] [] [] [] [] []]; try reflexivity. now contradiction Hm.
Qed.

Lemma parse_number_Z_to_string (z : Z) (rest : string) :
  follows_number rest = true ->
  parse_number (Z_to_string z ++ rest) = Some (z, rest).
Proof.
  intros Hrest. destruct z as [|p|p].
  - apply (parse_number_digits (Decimal.D0 Decimal.Nil)); [discriminate | assumption | reflexivity].
  - unfold Z_to_string. cbn [Z.to_int NilZero.string_of_int].
    pose proof (DecimalPos.Unsigned.to_uint_nonnil p) as Hd.
    rewrite (string_of_uint_nonnil _ Hd).
    apply parse_number_digits; [assumption | assumption|].
    unfold Z_to_string. cbn [Z.to_int NilZero.string_of_int].
    now rewrite (string_of_uint_nonnil _ Hd).
  - apply parse_number_split with (lit := Z_to_string (Z.neg p)); [|reflexivity].
    unfold Z_to_string. cbn [Z.to_int NilZero.string_of_int append].
    pose proof (DecimalPos.Unsigned.to_uint_nonnil p) as Hd.
    rewrite (string_of_uint_nonnil _ Hd), (span_digits_uint _ rest Hrest). reflexivity.
Qed.

(** A number starts with a digit or a minus sign. *)
Lemma Z_to_string_head (z : Z) :
  exists c r, Z_to_string z = String c r /\ starts_other c = false.
Proof.
  destruct z as [|p|p].
  - now exists "0"%char, EmptyString.
  - unfold Z_to_string. cbn [Z.to_int NilZero.string_of_int].
    pose proof (DecimalPos.Unsigned.to_uint_nonnil p) as Hd.
    rewrite (string_of_uint_nonnil _ Hd).
    destruct (uint_head _ Hd) as (c & r & Heq & Hc).
    exists c, r. split; [assumption | now apply digit_starts_number].
  - unfold Z_to_string. cbn [Z.to_int NilZero.string_of_int]. now eexists; eexists.
Qed.

Lemma parse_value_number (fuel : nat) (z : Z) (rest : string) :
  follows_number rest = true ->
  parse_value (S fuel) (Z_to_string z ++ rest) = Some (VNumber (Int z), rest).
Proof.
  intros Hrest. pose proof (parse_number_Z_to_string z rest Hrest) as Hn.
  destruct (Z_to_string_head z) as (c & r & Heq & Hc).
  rewrite Heq in *. cbn [append] in *. cbn [parse_value].
  unfold starts_other in Hc. repeat (apply orb_false_iff in Hc; destruct Hc as [Hc ?]).
  repeat match goal with H : Ascii.eqb _ _ = false |- _ => rewrite H; clear H end.
  now rewrite Hn.
Qed.

End RoundTripNumbers.

Lemma image_value_object at_ref stack props :
  Image.image_value at_ref stack (JS.VObject props)
  = let* partial := Loops.image_members (Image.image_value at_ref stack) props in
    Done (Some (JS.VObject partial)).
Proof. reflexivity. Qed.

Lemma image_value_array at_ref stack elems :
  Image.image_value at_ref stack (JS.VArray elems)
  = let* partial := Loops.image_elements (Image.image_value at_ref stack) elems in
    Done (Some (JS.VArray partial)).
Proof. reflexivity. Qed.

Lemma image_fuel_S fuel h stack v :
  Image.image_fuel (S fuel) h stack v = Image.image_value (Loops.image_ref fuel h) stack v.
Proof. reflexivity. Qed.

Section RoundTripImage.

Import JS Parse Image Loops RoundTrip.

(** *** The text is the text of the image *)

Lemma ser_members_image f g ps :
  Forall (fun kv : string * value => f (snd kv) = text_of (g (snd kv))) ps ->
  ser_members f ps
  = match image_members g ps with
    | Done partial => Done (map member_text partial)
    | Throw e => Throw e
    | Stuck => Stuck
    end.
Proof.
  induction 1 as [|[k x] ps Hx _ IH]; [reflexivity|].
  cbn [ser_members image_members]. cbn [snd] in Hx. rewrite Hx, IH.
  destruct (g x) as [[j|]| |]; cbn [text_of bind]; try reflexivity;
    destruct (image_members g ps); reflexivity.
Qed.

Lemma ser_elements_image f g es :
  Forall (fun x : value => f x = text_of (g x)) es ->
  ser_elements f es
  = match image_elements g es with
    | Done partial => Done (map print partial)
    | Throw e => Throw e
    | Stuck => Stuck
    end.
Proof.
  induction 1 as [|x es Hx _ IH]; [reflexivity|].
  cbn [ser_elements image_elements]. rewrite Hx, IH.
  destruct (g x) as [[j|]| |]; cbn [text_of bind]; try reflexivity;
    destruct (image_elements g es); reflexivity.
Qed.

Lemma ser_value_image at_s at_i stack v :
  (forall l, at_s stack l = text_of (at_i stack l)) ->
  ser_value at_s stack v = text_of (image_value at_i stack v).
Proof.
  intros Hat.
  induction v as [ | | b | n | z | s | | props IH | elems IH | l] using value_ind';
    try reflexivity.
  - now destruct b.
  - now destruct n.
  - rewrite ser_value_object, image_value_object, (ser_members_image _ _ _ IH).
    now destruct (image_members _ props).
  - rewrite ser_value_array, image_value_array, (ser_elements_image _ _ _ IH).
    now destruct (image_elements _ elems).
  - apply Hat.
Qed.

Lemma ser_fuel_image h fuel :
  forall stack v, ser_fuel fuel h stack v = text_of (image_fuel fuel h stack v).
Proof.
  induction fuel as [|fuel IH]; intros stack v; [reflexivity|].
  rewrite ser_fuel_S, image_fuel_S. apply ser_value_image.
  intros l. unfold ser_ref, image_ref.
  destruct (existsb (Nat.eqb l) stack); [reflexivity|].
  destruct (nth_error h l) as [[]|]; try reflexivity; apply IH.
Qed.

(** *** The image is plain *)

Lemma image_members_plain f ps :
  Forall (fun kv : string * value =>
            forall j, f (snd kv) = Done (Some j) -> plain j = true) ps ->
  forall partial,
    image_members f ps = Done partial ->
    forallb (fun kv : string * value => let (_, x) := kv in plain x) partial = true.
Proof.
  induction 1 as [|[k x] ps Hx _ IH]; cbn [image_members]; intros partial Hp.
  - apply Done_inj in Hp. now subst.
  - cbn [snd] in Hx. destruct (f x) as [img| |]; cbn [bind] in Hp; try discriminate.
    destruct (image_members f ps) as [rest| |]; cbn [bind] in Hp; try discriminate.
    apply Done_inj in Hp. subst partial. specialize (IH rest eq_refl).
    destruct img as [j|]; [|assumption].
    cbn [forallb]. now rewrite (Hx j eq_refl), IH.
Qed.

Lemma image_elements_plain f es :
  Forall (fun x : value => forall j, f x = Done (Some j) -> plain j = true) es ->
  forall partial,
    image_elements f es = Done partial -> forallb plain partial = true.
Proof.
  induction 1 as [|x es Hx _ IH]; cbn [image_elements]; intros partial Hp.
  - apply Done_inj in Hp. now subst.
  - destruct (f x) as [img| |]; cbn [bind] in Hp; try discriminate.
    destruct (image_elements f es) as [rest| |]; cbn [bind] in Hp; try discriminate.
    apply Done_inj in Hp. subst partial. specialize (IH rest eq_refl).
    cbn [forallb]. rewrite IH, andb_true_r.
    destruct img as [j|]; [exact (Hx j eq_refl) | reflexivity].
Qed.

Lemma image_value_plain at_i stack v :
  (forall l j, at_i stack l = Done (Some j) -> plain j = true) ->
  forall j, image_value at_i stack v = Done (Some j) -> plain j = true.
Proof.
  intros Hat.
  induction v as [ | | b | n | z | s | | props IH | elems IH | l] using value_ind';
    intros j Hj; try (simpl in Hj; discriminate Hj);
    try (simpl in Hj; apply Done_inj in Hj; injection Hj as <-; reflexivity).
  - destruct n; simpl in Hj; apply Done_inj in Hj; injection Hj as <-; reflexivity.
  - rewrite image_value_object in Hj.
    destruct (image_members _ props) as [partial| |] eqn:Hm; cbn [bind] in Hj;
      try discriminate.
    apply Done_inj in Hj. injection Hj as <-.
    exact (image_members_plain _ _ IH partial Hm).
  - rewrite image_value_array in Hj.
    destruct (image_elements _ elems) as [partial| |] eqn:Hm; cbn [bind] in Hj;
      try discriminate.
    apply Done_inj in Hj. injection Hj as <-.
    exact (image_elements_plain _ _ IH partial Hm).
  - exact (Hat l j Hj).
Qed.

Lemma image_fuel_plain h fuel :
  forall stack v j, image_fuel fuel h stack v = Done (Some j) -> plain j = true.
Proof.
  induction fuel as [|fuel IH]; intros stack v j Hj; [discriminate|].
  rewrite image_fuel_S in Hj.
  apply (image_value_plain (image_ref fuel h) stack v); [|assumption].
  intros l j' Hl. unfold image_ref in Hl.
  destruct (existsb (Nat.eqb l) stack); [discriminate|].
  destruct (nth_error h l) as [[]|]; try discriminate; exact (IH _ _ _ Hl).
Qed.

End RoundTripImage.

Section RoundTripParse.

Import JS Parse Image RoundTrip.

Lemma member_text_app (k : string) (x : value) (tail : string) :
  member_text (k, x) ++ tail
  = String Str.dq (quote_chars k ++ String Str.dq (String ":" (print x ++ tail))).
Proof.
  unfold member_text. rewrite append_assoc, QuoteJSONString_app.
  cbn [append]. reflexivity.
Qed.

Lemma parse_members_last (k : string) (x : value) (fuel : nat) (rest : string) :
  parse_value fuel (print x ++ String "}" rest) = Some (x, String "}" rest) ->
  parse_members (S fuel) (member_text (k, x) ++ String "}" rest) = Some ([(k, x)], rest).
Proof.
  intros Hx. rewrite member_text_app. cbn [parse_members].
  rewrite Ascii.eqb_refl, parse_chars_quote_chars, Hx. reflexivity.
Qed.

Lemma parse_members_more (k : string) (x : value) (fuel : nat) (tail : string) :
  parse_value fuel (print x ++ String "," tail) = Some (x, String "," tail) ->
  parse_members (S fuel) (member_text (k, x) ++ String "," tail)
  = match parse_members fuel tail with
    | Some (ps, rest) => Some ((k, x) :: ps, rest)
    | None => None
    end.
Proof.
  intros Hx. rewrite member_text_app. cbn [parse_members].
  rewrite Ascii.eqb_refl, parse_chars_quote_chars, Hx. reflexivity.
Qed.

Lemma parse_elements_last (x : value) (fuel : nat) (rest : string) :
  parse_value fuel (print x ++ String "]" rest) = Some (x, String "]" rest) ->
  parse_elements (S fuel) (print x ++ String "]" rest) = Some ([x], rest).
Proof.
  intros Hx. cbn [parse_elements]. rewrite Hx. reflexivity.
Qed.

Lemma parse_elements_more (x : value) (fuel : nat) (tail : string) :
  parse_value fuel (print x ++ String "," tail) = Some (x, String "," tail) ->
  parse_elements (S fuel) (print x ++ String "," tail)
  = match parse_elements fuel tail with
    | Some (es, rest) => Some (x :: es, rest)
    | None => None
    end.
Proof.
  intros Hx. cbn [parse_elements]. rewrite Hx. reflexivity.
Qed.

Lemma join_cons2 (sep x y : string) (l : list string) (tail : string) :
  Str.join sep (x :: y :: l) ++ tail = x ++ sep ++ Str.join sep (y :: l) ++ tail.
Proof.
  unfold Str.join. cbn [String.concat]. now rewrite !append_assoc.
Qed.

Lemma parse_members_print (ps : list (string * value)) :
  Forall (fun kv : string * value => reads_back (snd kv)) ps ->
  ps <> [] ->
  forall fuel rest,
    members_size ps <= fuel ->
    parse_members fuel (Str.join "," (map member_text ps) ++ String "}" rest)
    = Some (ps, rest).
Proof.
  induction 1 as [|[k x] ps Hx _ IH]; [contradiction|].
  intros _ fuel rest Hfuel. cbn [snd] in Hx.
  cbn [members_size fold_right] in Hfuel. fold (members_size ps) in Hfuel.
  destruct fuel as [|fuel]; [lia|].
  destruct ps as [|q qs].
  - cbn [map]. unfold Str.join. cbn [String.concat].
    apply parse_members_last. apply Hx; [lia | reflexivity].
  - cbn [map]. rewrite join_cons2. cbn [append].
    rewrite parse_members_more by (apply Hx; [lia | reflexivity]).
    change (member_text q :: map member_text qs) with (map member_text (q :: qs)).
    rewrite IH; [reflexivity | discriminate | lia].
Qed.

Lemma parse_elements_print (es : list value) :
  Forall reads_back es ->
  es <> [] ->
  forall fuel rest,
    elements_size es <= fuel ->
    parse_elements fuel (Str.join "," (map print es) ++ String "]" rest)
    = Some (es, rest).
Proof.
  induction 1 as [|x es Hx _ IH]; [contradiction|].
  intros _ fuel rest Hfuel.
  cbn [elements_size fold_right] in Hfuel. fold (elements_size es) in Hfuel.
  destruct fuel as [|fuel]; [lia|].
  destruct es as [|y ys].
  - cbn [map]. unfold Str.join. cbn [String.concat].
    apply parse_elements_last. apply Hx; [lia | reflexivity].
  - cbn [map]. rewrite join_cons2. cbn [append].
    rewrite parse_elements_more by (apply Hx; [lia | reflexivity]).
    change (print y :: map print ys) with (map print (y :: ys)).
    rewrite IH; [reflexivity | discriminate | lia].
Qed.

End RoundTripParse.

Section RoundTripValues.

Import JS Parse Image RoundTrip.

Lemma parse_value_array_nonempty (fuel : nat) (c : ascii) (r : string) :
  c <> "]"%char ->
  parse_value (S fuel) (String "[" (String c r))
  = match parse_elements fuel (String c r) with
    | Some (es, rest) => Some (VArray es, rest)
    | None => None
    end.
Proof.
  intros Hc. destruct c as [[] [] [] [] [] [] [] []]; try reflexivity.
  now contradiction Hc.
Qed.

Lemma parse_value_object_nonempty (fuel : nat) (c : ascii) (r : string) :
  c <> "}"%char ->
  parse_value (S fuel) (String "{" (String c r))
  = match parse_members fuel (String c r) with
    | Some (ps, rest) => Some (VObject ps, rest)
    | None => None
    end.
Proof.
  intros Hc. destruct c as [[] [] [] [] [] [] [] []]; try reflexivity.
  now contradiction Hc.
Qed.

Lemma parse_value_string (fuel : nat) (s rest : string) :
  parse_value (S fuel) (QuoteJSONString s ++ rest) = Some (VString s, rest).
Proof.
  rewrite QuoteJSONString_app.
  change (parse_value (S fuel) (String Str.dq (quote_chars s ++ String Str.dq rest)))
    with (match parse_chars (quote_chars s ++ String Str.dq rest) with
          | Some (str, rest') => Some (VString str, rest')
          | None => None
          end).
  now rewrite parse_chars_quote_chars.
Qed.

(** The first character of a number is a digit or the minus sign. *)
Lemma Z_to_string_first (z : Z) :
  exists c r, Z_to_string z = String c r /\ (is_digit c = true \/ c = "-"%char).
Proof.
  destruct z as [|p|p].
  - exists "0"%char, EmptyString. split; [reflexivity | now left].
  - unfold Z_to_string. cbn [Z.to_int NilZero.string_of_int].
    pose proof (DecimalPos.Unsigned.to_uint_nonnil p) as Hd.
    rewrite (string_of_uint_nonnil _ Hd).
    destruct (uint_head _ Hd) as (c & r & Heq & Hc).
    exists c, r. split; [assumption | now left].
  - unfold Z_to_string. cbn [Z.to_int NilZero.string_of_int].
    eexists; eexists. split; [reflexivity | now right].
Qed.

(** No text of a value starts with a closing bracket. *)
Lemma print_first (j : value) :
  exists c r, print j = String c r /\ c <> "]"%char.
Proof.
  destruct j as [ | | [] | [ | | | i] | z | s | | props | elems | l];
    try (eexists; eexists; split; [reflexivity | discriminate]).
  cbn [print]. destruct (Z_to_string_first i) as (c & r & Heq & [Hc | ->]).
  - exists c, r. split; [assumption|]. intros ->. discriminate Hc.
  - exists "-"%char, r. split; [assumption | discriminate].
Qed.

Lemma member_text_first (k : string) (x : value) :
  exists r, member_text (k, x) = String Str.dq r.
Proof.
  eexists. reflexivity.
Qed.

Lemma join_first (sep x : string) (l : list string) (c : ascii) (r : string) :
  x = String c r -> exists r', Str.join sep (x :: l) = String c r'.
Proof.
  intros ->. unfold Str.join. destruct l; cbn [String.concat append]; now eexists.
Qed.

(** A plain value is read back from its text. *)
Lemma plain_reads_back (j : value) : plain j = true -> reads_back j.
Proof.
  induction j as [ | | b | n | z | s | | props IH | elems IH | l] using value_ind';
    intros Hp; try discriminate Hp; intros fuel rest Hfuel Hrest.
  - destruct fuel; [simpl in Hfuel; lia | reflexivity].
  - destruct fuel; [simpl in Hfuel; lia | now destruct b].
  - destruct n; try discriminate Hp.
    destruct fuel; [simpl in Hfuel; lia | now apply parse_value_number].
  - destruct fuel; [simpl in Hfuel; lia | apply parse_value_string].
  - change (size (VObject props)) with (S (members_size props)) in Hfuel.
    destruct fuel as [|fuel]; [lia|].
    change (print (VObject props))
      with ("{" ++ Str.join "," (map member_text props) ++ "}").
    rewrite !append_assoc. cbn [append].
    destruct props as [|[k x] ps]; [reflexivity|].
    assert (Hall : Forall (fun kv : string * value => reads_back (snd kv)) ((k, x) :: ps)).
    { cbn [plain] in Hp. rewrite forallb_forall in Hp. rewrite Forall_forall in *.
      intros [k' x'] Hin. apply (IH _ Hin). exact (Hp _ Hin). }
    pose proof (parse_members_print _ Hall ltac:(discriminate) fuel rest ltac:(lia)) as Hm.
    destruct (member_text_first k x) as [r Hr].
    destruct (join_first "," _ (map member_text ps) _ _ Hr) as [r' Hr'].
    cbn [map] in Hm |- *. rewrite Hr' in Hm |- *. cbn [append] in Hm |- *.
    rewrite parse_value_object_nonempty by discriminate. now rewrite Hm.
  - change (size (VArray elems)) with (S (elements_size elems)) in Hfuel.
    destruct fuel as [|fuel]; [lia|].
    change (print (VArray elems)) with ("[" ++ Str.join "," (map print elems) ++ "]").
    rewrite !append_assoc. cbn [append].
    destruct elems as [|x es]; [reflexivity|].
    assert (Hall : Forall reads_back (x :: es)).
    { cbn [plain] in Hp. rewrite forallb_forall in Hp. rewrite Forall_forall in *.
      intros x' Hin. apply (IH _ Hin). exact (Hp _ Hin). }
    pose proof (parse_elements_print _ Hall ltac:(discriminate) fuel rest ltac:(lia)) as Hm.
    destruct (print_first x) as (c & r & Hr & Hc).
    destruct (join_first "," _ (map print es) _ _ Hr) as [r' Hr'].
    cbn [map] in Hm |- *. rewrite Hr' in Hm |- *. cbn [append] in Hm |- *.
    rewrite parse_value_array_nonempty by assumption. now rewrite Hm.
Qed.

End RoundTripValues.

Section RoundTripFuel.

Import JS Parse Image RoundTrip.

Lemma length_append (a b : string) :
  String.length (a ++ b) = String.length a + String.length b.
Proof.
  induction a as [|c a IH]; simpl; [reflexivity | now rewrite IH].
Qed.

Lemma join_cons (sep x y : string) (l : list string) :
  Str.join sep (x :: y :: l) = x ++ sep ++ Str.join sep (y :: l).
Proof. reflexivity. Qed.

Lemma length_member_text (k : string) (x : value) :
  S (String.length (print x)) < String.length (member_text (k, x)).
Proof.
  unfold member_text, QuoteJSONString. rewrite length_append.
  cbn [String.length append]. rewrite length_append. cbn [String.length]. lia.
Qed.

Lemma members_size_le (ps : list (string * value)) :
  Forall (fun kv : string * value => size (snd kv) <= String.length (print (snd kv))) ps ->
  members_size ps <= String.length (Str.join "," (map member_text ps)) + 1.
Proof.
  induction 1 as [|[k x] ps Hx _ IH]; [simpl; lia|].
  cbn [members_size fold_right]. fold (members_size ps). cbn [snd] in Hx.
  pose proof (length_member_text k x) as Hm.
  destruct ps as [|q qs].
  - cbn [members_size fold_right map]. unfold Str.join. cbn [String.concat]. lia.
  - cbn [map] in IH |- *. rewrite join_cons.
    rewrite !length_append. cbn [String.length]. lia.
Qed.

Lemma elements_size_le (es : list value) :
  Forall (fun x : value => size x <= String.length (print x)) es ->
  elements_size es <= String.length (Str.join "," (map print es)) + 1.
Proof.
  induction 1 as [|x es Hx _ IH]; [simpl; lia|].
  cbn [elements_size fold_right]. fold (elements_size es).
  destruct es as [|y ys].
  - cbn [elements_size fold_right map]. unfold Str.join. cbn [String.concat]. lia.
  - cbn [map] in IH |- *. rewrite join_cons.
    rewrite !length_append. cbn [String.length]. lia.
Qed.

(** The length of a text bounds the fuel that parsing it needs. *)
Lemma size_le_length (j : value) : plain j = true -> size j <= String.length (print j).
Proof.
  induction j as [ | | b | n | z | s | | props IH | elems IH | l] using value_ind';
    intros Hp; try discriminate Hp.
  - simpl. lia.
  - destruct b; simpl; lia.
  - destruct n as [ | | | i]; try discriminate Hp.
    cbn [print size]. destruct (Z_to_string_first i) as (c & r & -> & _). simpl. lia.
  - cbn [print size]. unfold QuoteJSONString. cbn [String.length]. lia.
  - change (size (VObject props)) with (S (members_size props)).
    change (print (VObject props))
      with ("{" ++ Str.join "," (map member_text props) ++ "}").
    rewrite !length_append. cbn [String.length].
    assert (members_size props <= String.length (Str.join "," (map member_text props)) + 1);
      [|lia].
    apply members_size_le. cbn [plain] in Hp. rewrite forallb_forall in Hp.
    rewrite Forall_forall in *. intros [k x] Hin. apply (IH _ Hin). exact (Hp _ Hin).
  - change (size (VArray elems)) with (S (elements_size elems)).
    change (print (VArray elems)) with ("[" ++ Str.join "," (map print elems) ++ "]").
    rewrite !length_append. cbn [String.length].
    assert (elements_size elems <= String.length (Str.join "," (map print elems)) + 1);
      [|lia].
    apply elements_size_le. cbn [plain] in Hp. rewrite forallb_forall in Hp.
    rewrite Forall_forall in *. intros x Hin. apply (IH _ Hin). exact (Hp _ Hin).
Qed.

(** [JSON.parse(JSON.stringify(v))] is the image of [v]. *)
Lemma JSON_parse_stringify (h : heap) (v : value) (text : string) :
  JSON_stringify h v = Done (Some text) ->
  exists j, JSON_image h v = Done (Some j) /\ JSON_parse text = Some j.
Proof.
  unfold JSON_stringify, JSON_image. rewrite ser_fuel_image.
  destruct (image_fuel (S (length h)) h [] v) as [[j|]| |] eqn:Hi;
    cbn [text_of]; intros H; try discriminate H.
  apply Done_inj in H. injection H as <-. exists j. split; [reflexivity|].
  pose proof (image_fuel_plain h _ _ _ _ Hi) as Hp.
  pose proof (plain_reads_back j Hp (S (String.length (print j))) EmptyString) as Hr.
  rewrite append_nil_r in Hr. unfold JSON_parse. rewrite Hr; [reflexivity | | reflexivity].
  pose proof (size_le_length j Hp). lia.
Qed.

End RoundTripFuel.

(** ** The document *)

(** The text of an object is never undefined. *)
Lemma JSON_stringify_object (h : JS.heap) (props : list (string * JS.value))
    (text : option string) :
  JS.JSON_stringify h (JS.VObject props) = Done text -> exists s, text = Some s.
Proof.
  unfold JS.JSON_stringify. rewrite ser_fuel_S, ser_value_object.
  destruct (Loops.ser_members _ props); cbn [bind]; intros H; try discriminate H.
  apply Done_inj in H. subst text. now eexists.
Qed.

(** The image of the built document has openapi 3.0.3. *)
Lemma JSON_image_openapi (h : JS.heap) (doc : OpenAPIDocumentation.t) (j : JS.value) :
  Image.JSON_image h (OpenAPISpec.to_value (createOpenAPISpec doc)) = Done (Some j) ->
  Parse.Get j "openapi" = JS.VString "3.0.3".
Proof.
  unfold Image.JSON_image, OpenAPISpec.to_value.
  rewrite image_fuel_S, image_value_object.
  cbn [Loops.image_members Image.image_value bind].
  destruct (Image.image_value _ _ (OpenAPISpec.paths _)) as [[p|]| |]; cbn [bind];
    try discriminate;
    destruct (Image.image_value _ _ (OpenAPISpec.components _)) as [[c|]| |]; cbn [bind];
    try discriminate;
    destruct (Image.image_value _ _ (OpenAPISpec.tags _)) as [[t|]| |]; cbn [bind];
    try discriminate;
    intros H; apply Done_inj in H; injection H as <-; reflexivity.
Qed.

(** C2, as stated, fails: when the spec path is also the UI path, the page is
    served there, with content-type text/html. *)
Lemma spec_path_shadowed_by_ui_path :
  ~ (forall (h : JS.heap) (cfg : Config.t) (req : Request) (next : Handler nat) (w : nat),
       URL.pathname (url req) = Done (spec_path cfg) ->
       exists r, swagger h cfg req next w = (Done (Fulfilled r), w) /\
                 status r = 200%Z /\ content_type r = "application/json").
Proof.
  intros H.
  destruct (H [] (Config.Build None None None None None None None
                    (Some "/docs") (Some "/docs") None None None None None None)
              (GET "http://localhost/docs") not_found 0 eq_refl) as (r & Hr & _ & Hc).
  vm_compute in Hr. injection Hr as <-. discriminate Hc.
Qed.

(** C2 (amended): a request, of any method, whose pathname is the spec path
    and not the UI path, in a configuration on whose document
    [JSON.stringify] completes (its documentation fragment holds no circular
    reference and no BigInt), is answered, without invoking [next()], with
    status 200 and content-type application/json, and [JSON.parse] reads from
    the body a value whose openapi is 3.0.3. *)
Theorem spec_request_document (World : Type) (h : JS.heap) (cfg : Config.t)
    (req : Request) (next : Handler World) (w : World) :
  URL.pathname (url req) = Done (spec_path cfg) ->
  spec_path cfg <> ui_path cfg ->
  completes h (OpenAPISpec.to_value (createOpenAPISpec (documentation_of cfg))) = true ->
  exists r j,
    swagger h cfg req next w = (Done (Fulfilled r), w) /\
    status r = 200%Z /\
    content_type r = "application/json" /\
    Parse.JSON_parse (body r) = Some j /\
    Parse.Get j "openapi" = JS.VString "3.0.3".
Proof.
  intros Hp Hne Hc.
  rewrite (swagger_routes World h cfg req next w _ Hp).
  rewrite (eqb_neq_false _ _ Hne), String.eqb_refl.
  destruct (completes_done h _ Hc) as [text Ht].
  destruct (JSON_stringify_object h _ text Ht) as [s ->].
  destruct (JSON_parse_stringify h _ s Ht) as (j & Hi & Hj).
  unfold json. rewrite Ht. cbn [bind].
  eexists. exists j. split; [reflexivity|].
  split; [reflexivity | split; [reflexivity | split; [exact Hj|]]].
  exact (JSON_image_openapi h _ j Hi).
Qed.

Lemma spec_request_document_witness :
  let h := [JS.VObject [("get", JS.VObject [("summary", JS.VString "List users")])]] in
  let doc := OpenAPIDocumentation.Build None None None
               (Some (JS.VObject [("/users", JS.VRef 0)])) in
  let cfg := Config.Build None None None None (Some doc) None None None None None None
                          None None None None in
  exists r j,
    swagger h cfg {| method := "POST"; url := "http://localhost/swagger/json" |} not_found 0
    = (Done (Fulfilled r), 0) /\
    status r = 200%Z /\
    content_type r = "application/json" /\
    Parse.JSON_parse (body r) = Some j /\
    Parse.Get j "openapi" = JS.VString "3.0.3".
Proof.
  intros h doc cfg.
  apply (spec_request_document nat h cfg
           {| method := "POST"; url := "http://localhost/swagger/json" |} not_found 0);
    [reflexivity | discriminate | reflexivity].
Defined.

(** ** The scenarios of the test suite *)

(** The document served at a custom spec path has the default title. *)
Example serves_specification :
  let cfg := Config.Build (Some scalar) None None None None None None
                          (Some "/docs") (Some "/docs/json") None None None None None None in
  exists r j,
    swagger [] cfg (GET "http://localhost/docs/json") not_found 0 = (Done (Fulfilled r), 0) /\
    Parse.JSON_parse (body r) = Some j /\
    Parse.Get j "openapi" = JS.VString "3.0.3" /\
    Parse.Get (Parse.Get j "info") "title" = JS.VString "Vafast API".
Proof.
  cbv zeta. eexists. eexists.
  split; [vm_compute; reflexivity | split; [vm_compute; reflexivity | split; reflexivity]].
Qed.

(** With the classic viewer and dark mode the page holds the dark rule. *)
Example serves_dark_mode :
  let cfg := Config.Build (Some swagger_ui) None None None None None None None None None
                          None None (Some true) None None in
  exists r,
    swagger [] cfg (GET "http://localhost/swagger") not_found 0 = (Done (Fulfilled r), 0) /\
    Str.includes "prefers-color-scheme: dark" (body r) = true /\
    Str.includes "SwaggerUIBundle" (body r) = true.
Proof.
  cbv zeta. eexists.
  split; [vm_compute; reflexivity | split; vm_compute; reflexivity].
Qed.

(** An option of the classic viewer is written into the script; an option
    whose value is a function is written as undefined. *)
Example splats_options :
  let cfg := Config.Build (Some swagger_ui) None None None None None None None None None
               (Some (JS.VObject [("persistAuthorization", JS.VBoolean true);
                                  ("requestInterceptor", JS.VFunction)]))
               None None None None in
  exists r,
    swagger [] cfg (GET "http://localhost/swagger") not_found 0 = (Done (Fulfilled r), 0) /\
    Str.includes "persistAuthorization: true,
                requestInterceptor: undefined" (body r) = true.
Proof.
  cbv zeta. eexists. split; vm_compute; reflexivity.
Qed.

(** * Further properties of the router *)

Lemma append_inj_l (s a b : string) : s ++ a = s ++ b -> a = b.
Proof.
  induction s as [|c s IH]; simpl; intros H; [assumption|].
  injection H as H. auto.
Qed.

Lemma append_neq_self (s : string) (c : ascii) (t : string) : s ++ String c t <> s.
Proof.
  intros H. rewrite <- (append_nil_r s) in H at 2.
  apply append_inj_l in H. discriminate H.
Qed.

(** X1: path matching is exact.  With the default spec path, a request to
    the UI path or to the spec path followed by a slash is not served but
    handed to [next()]. *)
Theorem trailing_slash_is_not_served (World : Type) (h : JS.heap) (cfg : Config.t)
    (req : Request) (next : Handler World) (w : World) (p : string) :
  URL.pathname (url req) = Done p ->
  Config.specPath cfg = None ->
  p = ui_path cfg ++ "/" \/ p = spec_path cfg ++ "/" ->
  swagger h cfg req next w = next w.
Proof.
  intros Hp Hs Hcases.
  assert (Hspec : spec_path cfg = ui_path cfg ++ "/json")
    by (unfold spec_path; now rewrite Hs).
  rewrite (swagger_routes World h cfg req next w p Hp).
  assert (Hui : p <> ui_path cfg).
  { destruct Hcases as [-> | ->].
    - apply append_neq_self.
    - rewrite Hspec, append_assoc. apply append_neq_self. }
  assert (Hsp : p <> spec_path cfg).
  { destruct Hcases as [-> | ->].
    - rewrite Hspec. intros H. apply append_inj_l in H. discriminate H.
    - apply append_neq_self. }
  now rewrite (eqb_neq_false _ _ Hui), (eqb_neq_false _ _ Hsp).
Qed.

Lemma trailing_slash_is_not_served_witness :
  swagger [] Config.empty (GET "http://localhost/swagger/") not_found 0 = not_found 0.
Proof.
  apply (trailing_slash_is_not_served nat [] Config.empty (GET "http://localhost/swagger/")
           not_found 0 "/swagger/"); [reflexivity | reflexivity | left; reflexivity].
Defined.

Section Pathname.

Import URL.

Lemma after_scheme_app (href r x : string) :
  after_scheme href = Some r -> after_scheme (href ++ x) = Some (r ++ x).
Proof.
  induction href as [|c href IH]; simpl; [discriminate|].
  destruct (Ascii.eqb c ":"%char); [|exact IH].
  intros H. injection H as <-. reflexivity.
Qed.

Lemma no_query_after_scheme (href r : string) :
  no_query href = true -> after_scheme href = Some r -> no_query r = true.
Proof.
  induction href as [|c href IH]; simpl; [discriminate|].
  intros Hq. apply andb_true_iff in Hq. destruct Hq as [_ Hq].
  destruct (Ascii.eqb c ":"%char); [|now apply IH].
  intros H. injection H as <-. exact Hq.
Qed.

Lemma take_path_no_query (s : string) : no_query s = true -> take_path s = s.
Proof.
  induction s as [|c s IH]; simpl; [reflexivity|].
  intros Hq. apply andb_true_iff in Hq. destruct Hq as [Hc Hq].
  apply negb_true_iff in Hc. rewrite Hc, (IH Hq). reflexivity.
Qed.

Lemma take_path_app (s x : string) :
  no_query s = true -> starts_query x = true -> take_path (s ++ x) = s.
Proof.
  intros Hs Hx. induction s as [|c s IH]; simpl.
  - destruct x as [|d x]; [discriminate|]. simpl in *. now rewrite Hx.
  - simpl in Hs. apply andb_true_iff in Hs. destruct Hs as [Hc Hs].
    apply negb_true_iff in Hc. rewrite Hc, (IH Hs). reflexivity.
Qed.

Lemma skip_authority_app (s x : string) :
  no_query s = true -> starts_query x = true ->
  skip_authority (s ++ x) = skip_authority s ++ x.
Proof.
  intros Hs Hx. induction s as [|c s IH]; simpl.
  - destruct x as [|d x]; [discriminate|]. simpl in *.
    apply orb_true_iff in Hx. destruct Hx as [Hx | Hx]; rewrite Hx;
      now rewrite ?orb_true_r.
  - simpl in Hs. apply andb_true_iff in Hs. destruct Hs as [Hc Hs].
    destruct (Ascii.eqb c "/"%char || Ascii.eqb c "?"%char || Ascii.eqb c "#"%char);
      [reflexivity | exact (IH Hs)].
Qed.

Lemma no_query_skip_authority (s : string) :
  no_query s = true -> no_query (skip_authority s) = true.
Proof.
  induction s as [|c s IH]; simpl; [reflexivity|].
  intros Hq.
  destruct (Ascii.eqb c "/"%char || Ascii.eqb c "?"%char || Ascii.eqb c "#"%char);
    [exact Hq|].
  apply andb_true_iff in Hq. now apply IH.
Qed.

Lemma path_after_scheme_cases (r : string) :
  (exists r', r = String "/" (String "/" r') /\
              path_after_scheme r = take_path (skip_authority r')) \/
  ((forall r', r <> String "/" (String "/" r')) /\ path_after_scheme r = take_path r).
Proof.
  destruct r as [|a [|b r']].
  - right. split; [discriminate | reflexivity].
  - right. split; [discriminate|].
    destruct a as [[] [] [] [] [] [] [] []]; reflexivity.
  - destruct (ascii_dec a "/"%char) as [-> | Ha];
      [destruct (ascii_dec b "/"%char) as [-> | Hb]|].
    + left. now exists r'.
    + right. split; [intros r'' H; injection H as H _; contradiction|].
      destruct b as [[] [] [] [] [] [] [] []]; try reflexivity. now contradiction Hb.
    + right. split; [intros r'' H; injection H as H _ _; contradiction|].
      destruct a as [[] [] [] [] [] [] [] []]; try reflexivity. now contradiction Ha.
Qed.

Lemma pathname_after_scheme (href r : string) :
  after_scheme href = Some r -> pathname href = Done (path_after_scheme r).
Proof.
  intros H. unfold pathname, path_after_scheme. rewrite H.
  destruct r as [|a [|b r']]; try reflexivity.
  - destruct a as [[] [] [] [] [] [] [] []]; reflexivity.
  - destruct a as [[] [] [] [] [] [] [] []]; try reflexivity.
    destruct b as [[] [] [] [] [] [] [] []]; reflexivity.
Qed.

Lemma starts_query_not_slash (x : string) :
  starts_query x = true -> exists c q, x = String c q /\ c <> "/"%char.
Proof.
  destruct x as [|c q]; [discriminate|]. simpl. intros H.
  exists c, q. split; [reflexivity|]. intros ->. discriminate H.
Qed.

Lemma path_after_scheme_app (r x : string) :
  no_query r = true -> starts_query x = true ->
  path_after_scheme (r ++ x) = path_after_scheme r.
Proof.
  intros Hr Hx.
  destruct (path_after_scheme_cases r) as [(r' & -> & Heq) | [Hno Heq]].
  - rewrite Heq. cbn [append]. change (path_after_scheme (String "/" (String "/" (r' ++ x))))
      with (take_path (skip_authority (r' ++ x))).
    assert (Hr' : no_query r' = true).
    { simpl in Hr. exact Hr. }
    rewrite (skip_authority_app r' x Hr' Hx).
    rewrite (take_path_app _ x (no_query_skip_authority r' Hr') Hx).
    now rewrite (take_path_no_query _ (no_query_skip_authority r' Hr')).
  - rewrite Heq, (take_path_no_query r Hr).
    destruct (path_after_scheme_cases (r ++ x)) as [(r' & Hrx & _) | [_ Heq']].
    + exfalso. destruct (starts_query_not_slash x Hx) as (c & q & -> & Hc).
      destruct r as [|a [|b r'']]; simpl in Hrx.
      * injection Hrx as H _. contradiction.
      * injection Hrx as _ H _. contradiction.
      * injection Hrx as -> -> _. now apply (Hno r'').
    + rewrite Heq'. exact (take_path_app r x Hr Hx).
Qed.

(** Only the pathname of the URL matters. *)
Lemma pathname_ignores_query (href x p : string) :
  no_query href = true -> starts_query x = true ->
  pathname href = Done p -> pathname (href ++ x) = Done p.
Proof.
  intros Hq Hx Hp.
  destruct (after_scheme href) as [r|] eqn:Hr;
    [|unfold pathname in Hp; rewrite Hr in Hp; discriminate Hp].
  rewrite (pathname_after_scheme href r Hr) in Hp.
  rewrite (pathname_after_scheme _ _ (after_scheme_app href r x Hr)).
  rewrite (path_after_scheme_app r x (no_query_after_scheme href r Hq Hr) Hx).
  exact Hp.
Qed.

End Pathname.

(** X2: the router looks at the pathname alone.  A query or a fragment
    added to the URL of a request, and the method of the request, do not
    change what the middleware does. *)
Theorem query_and_method_are_ignored (World : Type) (h : JS.heap) (cfg : Config.t)
    (m m' href x p : string) (next : Handler World) (w : World) :
  URL.pathname href = Done p ->
  no_query href = true ->
  starts_query x = true ->
  swagger h cfg {| method := m; url := href ++ x |} next w
  = swagger h cfg {| method := m'; url := href |} next w.
Proof.
  intros Hp Hq Hx.
  rewrite (swagger_routes World h cfg {| method := m; url := href ++ x |} next w p
             (pathname_ignores_query href x p Hq Hx Hp)).
  rewrite (swagger_routes World h cfg {| method := m'; url := href |} next w p Hp).
  reflexivity.
Qed.

Lemma query_and_method_are_ignored_witness :
  swagger [] Config.empty
          {| method := "POST"; url := "http://localhost/swagger/json?pretty=1#info" |}
          not_found 0
  = swagger [] Config.empty (GET "http://localhost/swagger/json") not_found 0.
Proof.
  exact (query_and_method_are_ignored nat [] Config.empty "POST" "GET"
           "http://localhost/swagger/json" "?pretty=1#info" "/swagger/json" not_found 0
           eq_refl eq_refl eq_refl).
Defined.

(** X3: a request to the UI path never reaches [next()]: the world is left
    as it was and the outcome, a page or the exception of the renderer, is
    the same for every continuation and every world. *)
Theorem ui_request_never_delegates (World World' : Type) (h : JS.heap) (cfg : Config.t)
    (req : Request) (next : Handler World) (w : World)
    (next' : Handler World') (w' : World') :
  URL.pathname (url req) = Done (ui_path cfg) ->
  snd (swagger h cfg req next w) = w /\
  fst (swagger h cfg req next' w') = fst (swagger h cfg req next w).
Proof.
  intros Hp.
  rewrite (swagger_routes World h cfg req next w _ Hp).
  rewrite (swagger_routes World' h cfg req next' w' _ Hp).
  rewrite String.eqb_refl. split; reflexivity.
Qed.

Lemma ui_request_never_delegates_witness :
  let h := [JS.VObject [("self", JS.VRef 0)]] in
  let cfg := Config.Build (Some scalar) None None (Some (JS.VRef 0)) None None None None
                          None None None None None None None in
  snd (swagger h cfg (GET "http://localhost/swagger") not_found 7) = 7.
Proof.
  intros h cfg.
  exact (proj1 (ui_request_never_delegates nat nat h cfg (GET "http://localhost/swagger")
                  not_found 7 not_found 0 eq_refl)).
Defined.

(** * Further properties of the configuration *)

(** X4: with the reference viewer selected (or no provider given), [version],
    [swaggerOptions], [theme] and [autoDarkMode] have no effect: whatever
    they are, even a circular [swaggerOptions], the middleware does the
    same. *)
Theorem classic_options_unused_by_scalar (World : Type) (h : JS.heap) (cfg : Config.t)
    (v : option string) (so : option JS.value) (th : option Theme) (dm : option bool)
    (req : Request) (next : Handler World) (w : World) :
  default scalar (Config.provider cfg) = scalar ->
  swagger h (set_classic_options v so th dm cfg) req next w = swagger h cfg req next w.
Proof.
  intros Hp. unfold swagger, set_classic_options.
  cbn [Config.provider Config.scalarVersion Config.scalarCDN Config.scalarConfig
       Config.documentation Config.version Config.path Config.specPath
       Config.swaggerOptions Config.theme Config.autoDarkMode].
  rewrite Hp. reflexivity.
Qed.

Lemma classic_options_unused_by_scalar_witness :
  let h := [JS.VObject [("self", JS.VRef 0)]] in
  swagger h (set_classic_options (Some "5.0.0") (Some (JS.VRef 0)) None (Some false)
                                 Config.empty)
          (GET "http://localhost/swagger") not_found 0
  = swagger h Config.empty (GET "http://localhost/swagger") not_found 0.
Proof.
  intros h.
  exact (classic_options_unused_by_scalar nat h Config.empty (Some "5.0.0")
           (Some (JS.VRef 0)) None (Some false) (GET "http://localhost/swagger")
           not_found 0 eq_refl).
Defined.

(** X5: with the classic viewer selected, [scalarVersion], [scalarCDN] and
    [scalarConfig] have no effect. *)
Theorem reference_options_unused_by_swagger_ui (World : Type) (h : JS.heap)
    (cfg : Config.t) (sv sc : option string) (sg : option JS.value)
    (req : Request) (next : Handler World) (w : World) :
  Config.provider cfg = Some swagger_ui ->
  swagger h (set_reference_options sv sc sg cfg) req next w = swagger h cfg req next w.
Proof.
  intros Hp. unfold swagger, set_reference_options.
  cbn [Config.provider Config.scalarVersion Config.scalarCDN Config.scalarConfig
       Config.documentation Config.version Config.path Config.specPath
       Config.swaggerOptions Config.theme Config.autoDarkMode].
  rewrite Hp. reflexivity.
Qed.

Lemma reference_options_unused_by_swagger_ui_witness :
  let cfg := Config.Build (Some swagger_ui) None None None None None None None None None
                          None None None None None in
  swagger [] (set_reference_options (Some "1.25.0") (Some "https://cdn.example/s.js")
                                    (Some (JS.VBigInt 1)) cfg)
          (GET "http://localhost/swagger") not_found 0
  = swagger [] cfg (GET "http://localhost/swagger") not_found 0.
Proof.
  intros cfg.
  exact (reference_options_unused_by_swagger_ui nat [] cfg (Some "1.25.0")
           (Some "https://cdn.example/s.js") (Some (JS.VBigInt 1))
           (GET "http://localhost/swagger") not_found 0 eq_refl).
Defined.

(** X6: of the documentation fragment the page shows the title alone: two
    fragments with the same page title, whatever their descriptions,
    versions, tags, components and paths, give the same outcome at the UI
    path. *)
Theorem page_depends_on_title_alone (World : Type) (h : JS.heap) (cfg : Config.t)
    (d d' : option OpenAPIDocumentation.t) (req : Request) (next : Handler World)
    (w : World) :
  URL.pathname (url req) = Done (ui_path cfg) ->
  page_title (set_documentation d cfg) = page_title (set_documentation d' cfg) ->
  swagger h (set_documentation d cfg) req next w
  = swagger h (set_documentation d' cfg) req next w.
Proof.
  intros Hp Ht.
  rewrite (swagger_routes World h (set_documentation d cfg) req next w _ Hp).
  rewrite (swagger_routes World h (set_documentation d' cfg) req next w _ Hp).
  change (ui_path (set_documentation d cfg)) with (ui_path cfg).
  change (ui_path (set_documentation d' cfg)) with (ui_path cfg).
  rewrite String.eqb_refl.
  unfold ui_page, renderScalar, renderSwaggerUI. unfold page_title in Ht.
  cbn [set_documentation Config.provider Config.scalarVersion Config.scalarCDN
       Config.scalarConfig Config.version Config.swaggerOptions Config.theme
       Config.autoDarkMode].
  rewrite Ht. reflexivity.
Qed.

Lemma page_depends_on_title_alone_witness :
  let d := OpenAPIDocumentation.Build
             (Some (OpenAPIInfo.Build (Some "Pets") (Some "All about pets") (Some "3.1.4")))
             (Some (JS.VArray [JS.VObject [("name", JS.VString "pets")]]))
             None (Some (JS.VBigInt 1)) in
  let d' := OpenAPIDocumentation.Build (Some (OpenAPIInfo.Build (Some "Pets") None None))
              None None None in
  swagger [] (set_documentation (Some d) Config.empty)
          (GET "http://localhost/swagger") not_found 0
  = swagger [] (set_documentation (Some d') Config.empty)
            (GET "http://localhost/swagger") not_found 0.
Proof.
  intros d d'.
  exact (page_depends_on_title_alone nat [] Config.empty (Some d) (Some d')
           (GET "http://localhost/swagger") not_found 0 eq_refl eq_refl).
Defined.

(** * Further properties of the pages *)

Lemma includes_between (a a1 m1 t b m2 b2 rest : string) :
  a = a1 ++ m1 ->
  b = m2 ++ b2 ->
  Str.includes (m1 ++ t ++ m2) (a ++ t ++ b ++ rest) = true.
Proof.
  intros -> ->.
  replace ((a1 ++ m1) ++ t ++ (m2 ++ b2) ++ rest)
    with (a1 ++ (m1 ++ t ++ m2) ++ b2 ++ rest) by now rewrite !append_assoc.
  apply includes_middle.
Qed.

Lemma includes_join (sep x : string) (xs : list string) :
  In x xs -> Str.includes x (Str.join sep xs) = true.
Proof.
  unfold Str.join. induction xs as [|y xs IH]; [contradiction|].
  intros [-> | Hin]; destruct xs as [|z xs]; cbn [String.concat].
  - apply includes_prefix. rewrite <- (append_nil_r x) at 2. apply prefix_self.
  - apply includes_prefix, prefix_self.
  - contradiction.
  - apply includes_app_r, includes_app_r. exact (IH Hin).
Qed.

Lemma map_outcome_in (A B : Type) (f : A -> outcome B) (xs : list A) (ys : list B)
    (x : A) (y : B) :
  map_outcome f xs = Done ys -> In x xs -> f x = Done y -> In y ys.
Proof.
  revert ys. induction xs as [|x0 xs IH]; cbn [map_outcome]; intros ys Hm Hin Hy;
    [contradiction|].
  destruct (f x0) as [y0| |] eqn:H0; cbn [bind] in Hm; try discriminate Hm.
  destruct (map_outcome f xs) as [ys0| |]; cbn [bind] in Hm; try discriminate Hm.
  apply Done_inj in Hm. subst ys. destruct Hin as [-> | Hin].
  - left. congruence.
  - right. exact (IH ys0 eq_refl Hin Hy).
Qed.

(** X7: the page of either viewer carries the title of the documentation
    fragment, or API Documentation when there is none or it is empty, between
    the title tags as it is, without escaping. *)
Theorem page_holds_title (h : JS.heap) (cfg : Config.t) (page : string) :
  ui_page h cfg = Done page ->
  Str.includes ("<title>" ++ page_title cfg ++ "</title>") page = true.
Proof.
  unfold ui_page, page_title.
  set (title := Str.opt_or_else _ _).
  destruct (default scalar (Config.provider cfg)).
  - unfold renderScalar.
    destruct (JS.JSON_stringify h _) as [text| |]; cbn [bind]; try discriminate.
    intros H. apply Done_inj in H. subst page.
    match goal with
    | |- Str.includes (?m1 ++ _ ++ ?m2) (?a ++ _ ++ ?b ++ ?rest) = true =>
        apply includes_between
          with (a1 := String.substring 0 (String.length a - String.length m1) a)
               (b2 := String.substring (String.length m2)
                                       (String.length b - String.length m2) b)
    end; vm_compute; reflexivity.
  - unfold renderSwaggerUI.
    destruct (Object_entries h _) as [entries| |]; cbn [bind]; try discriminate.
    destruct (map_outcome _ entries) as [options| |]; cbn [bind]; try discriminate.
    intros H. apply Done_inj in H. subst page.
    match goal with
    | |- Str.includes (?m1 ++ _ ++ ?m2) (?a ++ _ ++ ?b ++ ?rest) = true =>
        apply includes_between
          with (a1 := String.substring 0 (String.length a - String.length m1) a)
               (b2 := String.substring (String.length m2)
                                       (String.length b - String.length m2) b)
    end; vm_compute; reflexivity.
Qed.

Lemma page_holds_title_witness :
  let d := OpenAPIDocumentation.Build
             (Some (OpenAPIInfo.Build (Some "<script>alert(1)</script>") None None))
             None None None in
  exists page,
    ui_page [] (set_documentation (Some d) Config.empty) = Done page /\
    Str.includes "<title><script>alert(1)</script></title>" page = true.
Proof.
  intros d. eexists. split; [vm_compute; reflexivity|].
  apply (page_holds_title [] (set_documentation (Some d) Config.empty)). reflexivity.
Defined.

Ltac into_segment tac :=
  first [ apply includes_app_l; tac
        | apply includes_app_r; into_segment tac ].

(** X8: the classic viewer writes every entry of [swaggerOptions] into the
    script of the page as the key, a colon and the JSON text of the value:
    the key as it is, neither quoted nor escaped, and undefined for a value
    without a JSON text. *)
Theorem swagger_options_are_splatted (h : JS.heap) (info : OpenAPIInfo.t)
    (version : string) (theme : Theme) (swaggerOptions : JS.value) (autoDarkMode : bool)
    (page : string) (entries : list (string * JS.value)) (key : string) (value : JS.value)
    (text : option string) :
  renderSwaggerUI h info version theme swaggerOptions autoDarkMode = Done page ->
  Object_entries h swaggerOptions = Done entries ->
  In (key, value) entries ->
  JS.JSON_stringify h value = Done text ->
  Str.includes (key ++ ": " ++ JS.interpolate text) page = true.
Proof.
  unfold renderSwaggerUI. intros Hpage He Hin Ht. rewrite He in Hpage. cbn [bind] in Hpage.
  destruct (map_outcome _ entries) as [options| |] eqn:Hm; cbn [bind] in Hpage;
    try discriminate Hpage.
  apply Done_inj in Hpage. subst page.
  assert (Ho : In (key ++ ": " ++ JS.interpolate text) options).
  { apply (map_outcome_in _ _ _ entries options (key, value) _ Hm Hin).
    cbn beta iota. rewrite Ht. reflexivity. }
  into_segment ltac:(apply includes_join; exact Ho).
Qed.

Lemma swagger_options_are_splatted_witness :
  let so := JS.VObject [("persistAuthorization", JS.VBoolean true);
                        ("x}); alert(1); ({y", JS.VFunction)] in
  exists page,
    renderSwaggerUI [] OpenAPIInfo.empty "4.18.2" (ThemeUrl EmptyString) so true = Done page /\
    Str.includes "x}); alert(1); ({y: undefined" page = true.
Proof.
  intros so. eexists. split; [vm_compute; reflexivity|].
  apply (swagger_options_are_splatted [] OpenAPIInfo.empty "4.18.2" (ThemeUrl EmptyString)
           so true _ [("persistAuthorization", JS.VBoolean true);
                      ("x}); alert(1); ({y", JS.VFunction)]
           "x}); alert(1); ({y" JS.VFunction None);
    [reflexivity | reflexivity | right; left; reflexivity | reflexivity].
Defined.

Lemma includes_between_end (a a1 m1 t b m2 b2 : string) :
  a = a1 ++ m1 ->
  b = m2 ++ b2 ->
  Str.includes (m1 ++ t ++ m2) (a ++ t ++ b) = true.
Proof.
  intros Ha Hb. rewrite <- (append_nil_r b).
  exact (includes_between a a1 m1 t b m2 b2 EmptyString Ha Hb).
Qed.

(** X9: the script of the reference viewer is loaded from [cdn] when it is
    not empty, and then the viewer version has no effect; with an empty
    [cdn] it is loaded from jsdelivr at the given version. *)
Theorem renderScalar_script_source (h : JS.heap) (info : OpenAPIInfo.t)
    (version : string) (config : JS.value) (cdn : string) (page : string) :
  renderScalar h info version config cdn = Done page ->
  (cdn <> EmptyString ->
   Str.includes (Str.tpl "<script src=`" ++ cdn ++ Str.tpl "` crossorigin></script>") page
   = true /\
   forall version', renderScalar h info version' config cdn = Done page) /\
  (cdn = EmptyString ->
   Str.includes
     (Str.tpl "<script src=`https://cdn.jsdelivr.net/npm/@scalar/api-reference@"
        ++ version ++ Str.tpl "/dist/browser/standalone.min.js` crossorigin></script>")
     page = true).
Proof.
  unfold renderScalar.
  destruct (JS.JSON_stringify h config) as [text| |]; cbn [bind]; try discriminate.
  intros H. apply Done_inj in H. subst page. split.
  - intros Hc. assert (Hor : forall d, Str.or_else cdn d = cdn)
      by (intros d; destruct cdn; [contradiction | reflexivity]).
    split; [|intros version'; now rewrite !Hor].
    rewrite Hor. do 4 apply includes_app_r.
    match goal with
    | |- Str.includes (?m1 ++ _ ++ ?m2) (?a ++ _ ++ ?b) = true =>
        apply includes_between_end
          with (a1 := String.substring 0 (String.length a - String.length m1) a)
               (b2 := String.substring (String.length m2)
                                       (String.length b - String.length m2) b)
    end; vm_compute; reflexivity.
  - intros ->. cbn [Str.or_else]. do 4 apply includes_app_r.
    match goal with
    | |- Str.includes _ (?a ++ (?u1 ++ version ++ ?u2) ++ ?b) = true =>
        replace (a ++ (u1 ++ version ++ u2) ++ b)
          with ((a ++ u1) ++ version ++ (u2 ++ b)) by now rewrite !append_assoc
    end.
    match goal with
    | |- Str.includes (?m1 ++ _ ++ ?m2) (?a' ++ _ ++ ?b') = true =>
        apply includes_between_end
          with (a1 := String.substring 0 (String.length a' - String.length m1) a')
               (b2 := String.substring (String.length m2)
                                       (String.length b' - String.length m2) b')
    end; vm_compute; reflexivity.
Qed.

Lemma renderScalar_script_source_witness :
  exists page,
    renderScalar [] OpenAPIInfo.empty "latest" (JS.VObject []) "https://cdn.example/s.js"
    = Done page /\
    Str.includes (Str.tpl "<script src=`https://cdn.example/s.js` crossorigin></script>")
                 page = true /\
    renderScalar [] OpenAPIInfo.empty "1.0.0" (JS.VObject []) "https://cdn.example/s.js"
    = Done page.
Proof.
  eexists. split; [vm_compute; reflexivity|].
  destruct (renderScalar_script_source [] OpenAPIInfo.empty "latest" (JS.VObject [])
              "https://cdn.example/s.js" _ eq_refl) as [H _].
  destruct (H ltac:(discriminate)) as [Hin Hv].
  split; [exact Hin | exact (Hv "1.0.0")].
Defined.

(** * Further properties of the document *)

Lemma opt_or_else_nonempty (o : option string) (d : string) :
  d <> EmptyString -> Str.opt_or_else o d <> EmptyString.
Proof.
  intros Hd. destruct o as [[|c s]|]; simpl; [assumption | discriminate | assumption].
Qed.

Lemma or_else_nonempty (s d : string) : s <> EmptyString -> Str.or_else s d = s.
Proof.
  destruct s; [contradiction | reflexivity].
Qed.

Lemma or_default_truthy (o : option JS.value) (d : JS.value) :
  JS.ToBoolean d = true -> JS.ToBoolean (JS.or_default o d) = true.
Proof.
  intros Hd. destruct o as [v|]; simpl; [|assumption].
  destruct (JS.ToBoolean v) eqn:Hv; assumption.
Qed.

(** X10: whatever the documentation fragment is, the title, the description
    and the version of the built document are never the empty string. *)
Theorem built_info_is_never_empty (doc : OpenAPIDocumentation.t) :
  OpenAPISpec.title (OpenAPISpec.info (createOpenAPISpec doc)) <> EmptyString /\
  OpenAPISpec.description (OpenAPISpec.info (createOpenAPISpec doc)) <> EmptyString /\
  OpenAPISpec.version (OpenAPISpec.info (createOpenAPISpec doc)) <> EmptyString.
Proof.
  unfold createOpenAPISpec. cbn [OpenAPISpec.info OpenAPISpec.title OpenAPISpec.description
                                  OpenAPISpec.version].
  repeat split; apply opt_or_else_nonempty; discriminate.
Qed.

(** X11: the built document is a fixed point of the builder: handed in as
    the documentation fragment, it is built into itself. *)
Theorem createOpenAPISpec_is_idempotent (doc : OpenAPIDocumentation.t) :
  createOpenAPISpec (as_documentation (createOpenAPISpec doc)) = createOpenAPISpec doc.
Proof.
  assert (Ht : OpenAPISpec.title (OpenAPISpec.info (createOpenAPISpec doc)) <> EmptyString)
    by (apply opt_or_else_nonempty; discriminate).
  assert (Hd : OpenAPISpec.description (OpenAPISpec.info (createOpenAPISpec doc))
               <> EmptyString)
    by (apply opt_or_else_nonempty; discriminate).
  assert (Hv : OpenAPISpec.version (OpenAPISpec.info (createOpenAPISpec doc)) <> EmptyString)
    by (apply opt_or_else_nonempty; discriminate).
  unfold createOpenAPISpec at 1. unfold as_documentation.
  cbn [OpenAPIDocumentation.info OpenAPIDocumentation.paths OpenAPIDocumentation.components
       OpenAPIDocumentation.tags opt_chain OpenAPIInfo.title OpenAPIInfo.description
       OpenAPIInfo.version Str.opt_or_else JS.or_default].
  rewrite (or_else_nonempty _ _ Ht), (or_else_nonempty _ _ Hd), (or_else_nonempty _ _ Hv).
  assert (Hp : JS.ToBoolean (OpenAPISpec.paths (createOpenAPISpec doc)) = true)
    by (apply or_default_truthy; reflexivity).
  assert (Hc : JS.ToBoolean (OpenAPISpec.components (createOpenAPISpec doc)) = true)
    by (apply or_default_truthy; reflexivity).
  assert (Hg : JS.ToBoolean (OpenAPISpec.tags (createOpenAPISpec doc)) = true)
    by (apply or_default_truthy; reflexivity).
  rewrite Hp, Hc, Hg. reflexivity.
Qed.

Lemma unserialisable_edge (h : JS.heap) (v c : JS.value) :
  Graph.edge h v c -> Graph.unserialisable h c -> Graph.unserialisable h v.
Proof.
  intros He [(x & Hx & Hc) | (z & Hz)].
  - left. exists x. split; [now apply Graph.reaches_step with c | assumption].
  - right. exists z. now apply Graph.reaches_step with c.
Qed.

(** X12: when [paths], [components] or [tags] of the built document holds a
    circular reference or a BigInt, a request to the spec path fails with
    the TypeError of [JSON.stringify] instead of a response, and [next()] is
    not invoked. *)
Theorem spec_request_unserialisable (World : Type) (h : JS.heap) (cfg : Config.t)
    (req : Request) (next : Handler World) (w : World) (v : JS.value) :
  let built := createOpenAPISpec (documentation_of cfg) in
  URL.pathname (url req) = Done (spec_path cfg) ->
  spec_path cfg <> ui_path cfg ->
  Graph.heap_ok h = true ->
  Graph.refs_ok h (OpenAPISpec.to_value built) = true ->
  In v [OpenAPISpec.paths built; OpenAPISpec.components built; OpenAPISpec.tags built] ->
  Graph.unserialisable h v ->
  exists e, swagger h cfg req next w = (Throw e, w) /\ exn_name e = "TypeError".
Proof.
  intros built Hp Hne Hh Hok Hin Hu.
  rewrite (swagger_routes World h cfg req next w _ Hp).
  rewrite (eqb_neq_false _ _ Hne), String.eqb_refl. fold built.
  assert (Hroot : Graph.unserialisable h (OpenAPISpec.to_value built)).
  { apply unserialisable_edge with v; [|assumption].
    destruct Hin as [<- | [<- | [<- | []]]].
    - apply Graph.edge_prop with "paths". cbn. tauto.
    - apply Graph.edge_prop with "components". cbn. tauto.
    - apply Graph.edge_prop with "tags". cbn. tauto. }
  destruct (JSON_stringify_cases h _ Hh Hok) as [(text & _ & Hn) | (e & He & Hname & _)];
    [contradiction|].
  exists e. unfold json. rewrite He. now split.
Qed.

Lemma spec_request_unserialisable_witness :
  let h := [JS.VObject [("parent", JS.VRef 0)]] in
  let doc := OpenAPIDocumentation.Build None None None
               (Some (JS.VObject [("/users", JS.VRef 0)])) in
  let cfg := Config.Build None None None None (Some doc) None None None None None None
                          None None None None in
  exists e, swagger h cfg (GET "http://localhost/swagger/json") not_found 0 = (Throw e, 0)
            /\ exn_name e = "TypeError".
Proof.
  intros h doc cfg.
  apply (spec_request_unserialisable nat h cfg (GET "http://localhost/swagger/json")
           not_found 0 (JS.VObject [("/users", JS.VRef 0)]));
    [reflexivity | discriminate | reflexivity | reflexivity | left; reflexivity |].
  left. exists (JS.VRef 0). split.
  - apply Graph.reaches_step with (JS.VRef 0); [|constructor].
    apply Graph.edge_prop with "/users". now left.
  - exists (JS.VObject [("parent", JS.VRef 0)]). split; [now constructor|].
    apply Graph.reaches_step with (JS.VRef 0); [|constructor].
    apply Graph.edge_prop with "parent". now left.
Defined.

Section PlainImage.

Import JS Image Loops.

Lemma image_members_plain_id f ps :
  Forall (fun kv : string * value => f (snd kv) = Done (Some (snd kv))) ps ->
  image_members f ps = Done ps.
Proof.
  induction 1 as [|[k x] ps Hx _ IH]; [reflexivity|].
  cbn [image_members]. cbn [snd] in Hx. now rewrite Hx, IH.
Qed.

Lemma image_elements_plain_id f es :
  Forall (fun x : value => f x = Done (Some x)) es ->
  image_elements f es = Done es.
Proof.
  induction 1 as [|x es Hx _ IH]; [reflexivity|].
  cbn [image_elements]. now rewrite Hx, IH.
Qed.

(** A plain value is its own image. *)
Lemma image_value_plain_id at_ref stack v :
  plain v = true -> image_value at_ref stack v = Done (Some v).
Proof.
  induction v as [ | | b | n | z | s | | props IH | elems IH | l] using value_ind';
    intros Hp; try discriminate Hp; try reflexivity.
  - destruct n; try discriminate Hp; reflexivity.
  - rewrite image_value_object, image_members_plain_id; [reflexivity|].
    cbn [plain] in Hp. rewrite forallb_forall in Hp. rewrite Forall_forall in *.
    intros [k x] Hin. apply (IH _ Hin). exact (Hp _ Hin).
  - rewrite image_value_array, image_elements_plain_id; [reflexivity|].
    cbn [plain] in Hp. rewrite forallb_forall in Hp. rewrite Forall_forall in *.
    intros x Hin. apply (IH _ Hin). exact (Hp _ Hin).
Qed.

Lemma JSON_image_plain_id h v : plain v = true -> JSON_image h v = Done (Some v).
Proof.
  intros Hp. unfold JSON_image. rewrite image_fuel_S. now apply image_value_plain_id.
Qed.

End PlainImage.

(** X13: when [paths], [components] and [tags] of the built document are
    plain JSON data (no reference into the heap, no function, no undefined,
    no BigInt, no number that is not finite), the body served at the spec path
    is read back by [JSON.parse] as the built document itself. *)
Theorem spec_body_round_trip (World : Type) (h : JS.heap) (cfg : Config.t)
    (req : Request) (next : Handler World) (w : World) :
  let built := OpenAPISpec.to_value (createOpenAPISpec (documentation_of cfg)) in
  URL.pathname (url req) = Done (spec_path cfg) ->
  spec_path cfg <> ui_path cfg ->
  Image.plain built = true ->
  exists r,
    swagger h cfg req next w = (Done (Fulfilled r), w) /\
    Parse.JSON_parse (body r) = Some built.
Proof.
  intros built Hp Hne Hplain.
  rewrite (swagger_routes World h cfg req next w _ Hp).
  rewrite (eqb_neq_false _ _ Hne), String.eqb_refl. fold built.
  pose proof (JSON_image_plain_id h built Hplain) as Hi.
  assert (Ht : JS.JSON_stringify h built = Done (Some (Image.print built))).
  { unfold JS.JSON_stringify. rewrite ser_fuel_image.
    unfold Image.JSON_image in Hi. now rewrite Hi. }
  destruct (JSON_parse_stringify h built _ Ht) as (j & Hj & Hparse).
  rewrite Hi in Hj. apply Done_inj in Hj. injection Hj as <-.
  unfold json. rewrite Ht. cbn [bind]. eexists. split; [reflexivity | exact Hparse].
Qed.

Lemma spec_body_round_trip_witness :
  let doc := OpenAPIDocumentation.Build
               (Some (OpenAPIInfo.Build (Some "Pets") None (Some "2.0.0")))
               (Some (JS.VArray [JS.VObject [("name", JS.VString "pets")]]))
               None
               (Some (JS.VObject
                        [("/pets", JS.VObject
                                     [("get", JS.VObject
                                                [("deprecated", JS.VBoolean false);
                                                 ("x-rank", JS.VNumber (JS.Int (-3)))])])])) in
  let cfg := set_documentation (Some doc) Config.empty in
  exists r,
    swagger [] cfg (GET "http://localhost/swagger/json") not_found 0
    = (Done (Fulfilled r), 0) /\
    Parse.JSON_parse (body r)
    = Some (OpenAPISpec.to_value (createOpenAPISpec (documentation_of cfg))).
Proof.
  intros doc cfg.
  apply (spec_body_round_trip nat [] cfg (GET "http://localhost/swagger/json") not_found 0);
    [reflexivity | discriminate | reflexivity].
Defined.

(** * The renderer of the reference viewer in src/unnamed/part_000 *)

Ltac between_segments :=
  match goal with
  | |- Str.includes (?m1 ++ _ ++ ?m2) (?a ++ _ ++ ?b ++ ?rest) = true =>
      apply includes_between
        with (a1 := String.substring 0 (String.length a - String.length m1) a)
             (b2 := String.substring (String.length m2)
                                     (String.length b - String.length m2) b);
      vm_compute; reflexivity
  end.

(** What [ScalarRender] returns when it returns a page. *)
Lemma ScalarRender_done (h : JS.heap) (info : Scalar.InfoObject) (version : string)
    (config : JS.value) (cdn : string) (page : string) :
  Scalar.ScalarRender h info version config cdn = Done page ->
  exists customCss css spec url dataUrl configuration rest,
    Scalar.get_property h config "customCss" = Done customCss /\
    Scalar.ToString h (Scalar.nullish_or customCss (JS.VString Scalar.defaultTheme))
    = Done css /\
    Scalar.get_property h config "spec" = Done spec /\
    Scalar.optional_property h spec "url" = Done url /\
    Scalar.ToString h url = Done dataUrl /\
    JS.JSON_stringify h config = Done configuration /\
    Scalar.ScalarRender h info version config cdn = Done page /\
    page = Str.tpl "<!doctype html>
<html>
  <head>
    <title>" ++ Scalar.title info ++ Str.tpl "</title>
    <meta
        name=`description`
        content=`" ++ JS.interpolate (Scalar.description info) ++ Str.tpl "`
    />
    <meta
        name=`og:description`
        content=`" ++ JS.interpolate (Scalar.description info) ++ Str.tpl "`
    />
    <meta charset=`utf-8` />
    <meta
      name=`viewport`
      content=`width=device-width, initial-scale=1` />
    <style>
      body {
        margin: 0;
      }
    </style>
    <style>
      " ++ css ++ Str.tpl "
    </style>
  </head>
  <body>
    <script
      id=`api-reference`
      data-url=`" ++ dataUrl ++ Str.tpl "`
      data-configuration='" ++ rest.
Proof.
  intros Hpage. pose proof Hpage as H. unfold Scalar.ScalarRender in H.
  destruct (Scalar.get_property h config "customCss") as [customCss| |] eqn:H1;
    cbn [bind] in H; try discriminate H.
  destruct (Scalar.ToString h _) as [css| |] eqn:H2; cbn [bind] in H; try discriminate H.
  destruct (Scalar.get_property h config "spec") as [spec| |] eqn:H3;
    cbn [bind] in H; try discriminate H.
  destruct (Scalar.optional_property h spec "url") as [url| |] eqn:H4;
    cbn [bind] in H; try discriminate H.
  destruct (Scalar.ToString h url) as [dataUrl| |] eqn:H5;
    cbn [bind] in H; try discriminate H.
  destruct (JS.JSON_stringify h config) as [configuration| |] eqn:H6;
    cbn [bind] in H; try discriminate H.
  apply Done_inj in H.
  exists customCss, css, spec, url, dataUrl, configuration. eexists.
  split; [reflexivity|]. split; [exact H2|]. split; [reflexivity|].
  split; [exact H4|]. split; [exact H5|]. split; [reflexivity|].
  split; [exact Hpage|]. rewrite <- H. reflexivity.
Qed.

(** X14: the content element of [ScalarRender] carries in data-url the text
    of [config.spec?.url]: the configured URL of the document, and undefined
    when the configuration has no spec. *)
Theorem ScalarRender_data_url (h : JS.heap) (info : Scalar.InfoObject) (version : string)
    (config : JS.value) (cdn : string) (page : string) (spec url : JS.value)
    (text : string) :
  Scalar.ScalarRender h info version config cdn = Done page ->
  Scalar.get_property h config "spec" = Done spec ->
  Scalar.optional_property h spec "url" = Done url ->
  Scalar.ToString h url = Done text ->
  Str.includes (Str.tpl "data-url=`" ++ text ++ Str.tpl "`") page = true /\
  (spec = JS.VUndefined -> text = "undefined").
Proof.
  intros Hpage Hspec Hurl Htext.
  destruct (ScalarRender_done h info version config cdn page Hpage)
    as (customCss & css & spec' & url' & dataUrl & configuration & rest
        & _ & _ & Hspec' & Hurl' & Htext' & _ & _ & ->).
  rewrite Hspec in Hspec'. apply Done_inj in Hspec'. subst spec'.
  rewrite Hurl in Hurl'. apply Done_inj in Hurl'. subst url'.
  rewrite Htext in Htext'. apply Done_inj in Htext'. subst dataUrl.
  split.
  - do 8 apply includes_app_r. between_segments.
  - intros ->. cbn in Hurl. apply Done_inj in Hurl. subst url.
    cbn in Htext. apply Done_inj in Htext. now subst text.
Qed.

Lemma ScalarRender_data_url_witness :
  let config := JS.VObject [("spec", JS.VObject [("url", JS.VString "/api-docs/spec")])] in
  exists page,
    Scalar.ScalarRender [] (Scalar.BuildInfo "Pets" None) "latest" config EmptyString
    = Done page /\
    Str.includes (Str.tpl "data-url=`/api-docs/spec`") page = true.
Proof.
  intros config. eexists. split; [vm_compute; reflexivity|].
  exact (proj1 (ScalarRender_data_url [] (Scalar.BuildInfo "Pets" None) "latest" config
                  EmptyString _
                  (JS.VObject [("url", JS.VString "/api-docs/spec")])
                  (JS.VString "/api-docs/spec") "/api-docs/spec"
                  eq_refl eq_refl eq_refl eq_refl)).
Defined.

(** X15: [ScalarRender] falls back to its default style sheet only when
    [config.customCss] is undefined or null; a style sheet that is given, the
    empty text included, is written as it is. *)
Theorem ScalarRender_custom_css (h : JS.heap) (info : Scalar.InfoObject) (version : string)
    (config : JS.value) (cdn : string) (page : string) (customCss : JS.value) :
  Scalar.ScalarRender h info version config cdn = Done page ->
  Scalar.get_property h config "customCss" = Done customCss ->
  (customCss = JS.VUndefined \/ customCss = JS.VNull ->
   Str.includes (Str.tpl "<style>
      " ++ Scalar.defaultTheme ++ Str.tpl "
    </style>") page = true) /\
  (forall s, customCss = JS.VString s ->
   Str.includes (Str.tpl "<style>
      " ++ s ++ Str.tpl "
    </style>") page = true).
Proof.
  intros Hpage Hcss.
  destruct (ScalarRender_done h info version config cdn page Hpage)
    as (customCss' & css & spec & url & dataUrl & configuration & rest
        & Hcss' & Hstr & _ & _ & _ & _ & _ & ->).
  rewrite Hcss in Hcss'. apply Done_inj in Hcss'. subst customCss'.
  split.
  - intros [-> | ->]; cbn in Hstr; apply Done_inj in Hstr; subst css;
      do 6 apply includes_app_r; between_segments.
  - intros s ->. cbn in Hstr. apply Done_inj in Hstr. subst css.
    do 6 apply includes_app_r. between_segments.
Qed.

Lemma ScalarRender_custom_css_witness :
  let config := JS.VObject [("customCss", JS.VString EmptyString)] in
  exists page,
    Scalar.ScalarRender [] (Scalar.BuildInfo "Pets" None) "latest" config EmptyString
    = Done page /\
    Str.includes (Str.tpl "<style>
      
    </style>") page = true /\
    Str.includes "background: #f5f5f5" page = false.
Proof.
  intros config. eexists. split; [vm_compute; reflexivity|]. split.
  - exact (proj2 (ScalarRender_custom_css [] (Scalar.BuildInfo "Pets" None) "latest" config
                    EmptyString _ (JS.VString EmptyString) eq_refl eq_refl)
                 EmptyString eq_refl).
  - vm_compute. reflexivity.
Defined.

(** X16: [ScalarRender] writes the description of the document into two
    meta tags without a default: when the description is absent, their
    content is the text undefined. *)
Theorem ScalarRender_absent_description (h : JS.heap) (info : Scalar.InfoObject)
    (version : string) (config : JS.value) (cdn : string) (page : string) :
  Scalar.ScalarRender h info version config cdn = Done page ->
  Scalar.description info = None ->
  Str.includes (Str.tpl "name=`description`
        content=`undefined`") page = true /\
  Str.includes (Str.tpl "name=`og:description`
        content=`undefined`") page = true.
Proof.
  intros Hpage Hd.
  destruct (ScalarRender_done h info version config cdn page Hpage)
    as (customCss & css & spec & url & dataUrl & configuration & rest
        & _ & _ & _ & _ & _ & _ & _ & ->).
  rewrite Hd. cbn [JS.interpolate].
  split.
  - do 2 apply includes_app_r.
    match goal with
    | |- Str.includes ?m (?a0 ++ ?u ++ ?b0 ++ ?rest0) = true =>
        replace (a0 ++ u ++ b0 ++ rest0) with ((a0 ++ u ++ Str.tpl "`") ++
          String.substring 1 (String.length b0 - 1) b0 ++ rest0)
    end.
    + apply includes_app_l. vm_compute. reflexivity.
    + rewrite !append_assoc. reflexivity.
  - do 4 apply includes_app_r.
    match goal with
    | |- Str.includes ?m (?a0 ++ ?u ++ ?b0 ++ ?rest0) = true =>
        replace (a0 ++ u ++ b0 ++ rest0) with ((a0 ++ u ++ Str.tpl "`") ++
          String.substring 1 (String.length b0 - 1) b0 ++ rest0)
    end.
    + apply includes_app_l. vm_compute. reflexivity.
    + rewrite !append_assoc. reflexivity.
Qed.

Lemma ScalarRender_absent_description_witness :
  exists page,
    Scalar.ScalarRender [] (Scalar.BuildInfo "Pets" None) "latest" (JS.VObject []) EmptyString
    = Done page /\
    Str.includes (Str.tpl "name=`description`
        content=`undefined`") page = true.
Proof.
  eexists. split; [vm_compute; reflexivity|].
  exact (proj1 (ScalarRender_absent_description [] (Scalar.BuildInfo "Pets" None) "latest"
                  (JS.VObject []) EmptyString _ eq_refl eq_refl)).
Defined.

(** * The assets of the classic viewer *)

(** X17: the page of the classic viewer loads its script bundle and its
    standalone preset from unpkg at the version handed to the renderer. *)
Theorem renderSwaggerUI_scripts (h : JS.heap) (info : OpenAPIInfo.t) (version : string)
    (theme : Theme) (swaggerOptions : JS.value) (autoDarkMode : bool) (page : string) :
  renderSwaggerUI h info version theme swaggerOptions autoDarkMode = Done page ->
  Str.includes
    (Str.tpl "<script src=`https://unpkg.com/swagger-ui-dist@" ++ version
       ++ Str.tpl "/swagger-ui-bundle.js`></script>") page = true /\
  Str.includes
    (Str.tpl "<script src=`https://unpkg.com/swagger-ui-dist@" ++ version
       ++ Str.tpl "/swagger-ui-standalone-preset.js`></script>") page = true.
Proof.
  unfold renderSwaggerUI.
  destruct (Object_entries h swaggerOptions) as [entries| |]; cbn [bind]; try discriminate.
  destruct (map_outcome _ entries) as [options| |]; cbn [bind]; try discriminate.
  intros H. apply Done_inj in H. subst page. split.
  - do 6 apply includes_app_r. between_segments.
  - do 8 apply includes_app_r. between_segments.
Qed.

Lemma renderSwaggerUI_scripts_witness :
  exists page,
    renderSwaggerUI [] OpenAPIInfo.empty "5.1.0" (ThemeUrl EmptyString) (JS.VObject []) false
    = Done page /\
    Str.includes
      (Str.tpl "<script src=`https://unpkg.com/swagger-ui-dist@5.1.0/swagger-ui-bundle.js`></script>")
      page = true.
Proof.
  eexists. split; [vm_compute; reflexivity|].
  exact (proj1 (renderSwaggerUI_scripts [] OpenAPIInfo.empty "5.1.0" (ThemeUrl EmptyString)
                  (JS.VObject []) false _ eq_refl)).
Defined.

(** * The default paths *)

(** C7: without configuration the page is served at /swagger and the
    document at /swagger/json.  In every configuration without [specPath]
    the spec path is the UI path followed by /json: a request there is
    answered with the document (when [JSON.stringify] completes on it), and
    a request to any path other than the UI path and this one is handed to
    [next()]; in every configuration without [path] the page is served at
    /swagger.  With [path] /api-docs and [specPath] /api-docs/spec, requests
    to /api-docs and to /api-docs/spec are answered with status 200 and
    requests to /swagger and /swagger/json are handed to [next()]. *)
Theorem swagger_paths (World : Type) (h : JS.heap) (req : Request)
    (next : Handler World) (w : World) (p : string) :
  URL.pathname (url req) = Done p ->
  (p = "/swagger" ->
   exists r, swagger h Config.empty req next w = (Done (Fulfilled r), w) /\
             status r = 200%Z /\ content_type r = "text/html") /\
  (p = "/swagger/json" ->
   exists r, swagger h Config.empty req next w = (Done (Fulfilled r), w) /\
             status r = 200%Z /\ content_type r = "application/json") /\
  (forall cfg, Config.specPath cfg = None -> spec_path cfg = ui_path cfg ++ "/json") /\
  (let custom :=
     Config.Build (Some scalar) None None None None None None
                  (Some "/api-docs") (Some "/api-docs/spec")
                  None None None None None None in
   p = "/api-docs" \/ p = "/api-docs/spec" ->
   exists r, swagger h custom req next w = (Done (Fulfilled r), w) /\ status r = 200%Z) /\
  (p = "/swagger" \/ p = "/swagger/json" ->
   forall cfg,
     Config.path cfg = Some "/api-docs" ->
     Config.specPath cfg = Some "/api-docs/spec" ->
     swagger h cfg req next w = next w) /\
  (forall cfg,
     Config.specPath cfg = None ->
     p = default "/swagger" (Config.path cfg) ++ "/json" ->
     completes h (OpenAPISpec.to_value (createOpenAPISpec (documentation_of cfg))) = true ->
     exists r j,
       swagger h cfg req next w = (Done (Fulfilled r), w) /\
       status r = 200%Z /\
       content_type r = "application/json" /\
       Parse.JSON_parse (body r) = Some j /\
       Parse.Get j "openapi" = JS.VString "3.0.3") /\
  (forall cfg,
     Config.specPath cfg = None ->
     p <> default "/swagger" (Config.path cfg) ->
     p <> default "/swagger" (Config.path cfg) ++ "/json" ->
     swagger h cfg req next w = next w) /\
  (forall cfg opts,
     Config.path cfg = None ->
     p = "/swagger" ->
     serialised_options h cfg = Done opts ->
     forallb (completes h) opts = true ->
     exists page,
       swagger h cfg req next w
       = (Done (Fulfilled {| status := 200; content_type := "text/html"; body := page |}), w)).
Proof.
  intros Hp.
  split; [|split; [|split; [|split; [|split; [|split; [|split]]]]]].
  - intros ->. rewrite (swagger_routes World h _ req next w _ Hp).
    eexists. split; [reflexivity | split; reflexivity].
  - intros ->. rewrite (swagger_routes World h _ req next w _ Hp).
    eexists. split; [reflexivity | split; reflexivity].
  - intros cfg H. unfold spec_path. now rewrite H.
  - cbv zeta. intros [-> | ->]; rewrite (swagger_routes World h _ req next w _ Hp);
      eexists; (split; [reflexivity | reflexivity]).
  - intros Hold cfg Hpath Hspec.
    apply (swagger_delegates World h cfg req next w p Hp);
      unfold spec_path, ui_path; rewrite ?Hpath, ?Hspec; cbn [default];
      destruct Hold as [-> | ->]; discriminate.
  - intros cfg Hs Heq Hc. fold (ui_path cfg) in Heq.
    assert (Hspec : spec_path cfg = ui_path cfg ++ "/json")
      by (unfold spec_path; now rewrite Hs).
    assert (Hne : p <> ui_path cfg) by (rewrite Heq; apply append_neq_self).
    rewrite (swagger_routes World h cfg req next w p Hp).
    rewrite (eqb_neq_false _ _ Hne), Hspec, Heq, String.eqb_refl.
    destruct (completes_done h _ Hc) as [text Ht].
    destruct (JSON_stringify_object h _ text Ht) as [s ->].
    destruct (JSON_parse_stringify h _ s Ht) as (j & Hi & Hj).
    unfold json. rewrite Ht. cbn [bind].
    eexists. exists j. split; [reflexivity|].
    split; [reflexivity | split; [reflexivity | split; [exact Hj|]]].
    exact (JSON_image_openapi h _ j Hi).
  - intros cfg Hs Hui Hsp.
    apply (swagger_delegates World h cfg req next w p Hp); [exact Hui|].
    unfold spec_path. rewrite Hs. exact Hsp.
  - intros cfg opts Hpath -> Ho Hc.
    destruct (ui_page_rendered h cfg opts Ho Hc) as (page & Hpage & _).
    exists page.
    rewrite (swagger_routes World h cfg req next w _ Hp).
    unfold ui_path. rewrite Hpath. cbn [default].
    rewrite String.eqb_refl, Hpage. reflexivity.
Qed.

Lemma swagger_paths_witness :
  let custom :=
    Config.Build (Some scalar) None None None None None None
                 (Some "/api-docs") (Some "/api-docs/spec")
                 None None None None None None in
  let docs :=
    Config.Build None None None None None None None (Some "/docs") None
                 None None None None None None in
  (exists r, swagger [] custom (GET "http://localhost/api-docs/spec") not_found 0
             = (Done (Fulfilled r), 0) /\ status r = 200%Z) /\
  swagger [] custom (GET "http://localhost/swagger/json") not_found 0 = not_found 0 /\
  (exists r j, swagger [] docs (GET "http://localhost/docs/json") not_found 0
               = (Done (Fulfilled r), 0) /\
               status r = 200%Z /\
               content_type r = "application/json" /\
               Parse.JSON_parse (body r) = Some j /\
               Parse.Get j "openapi" = JS.VString "3.0.3") /\
  swagger [] docs (GET "http://localhost/swagger/json") not_found 0 = not_found 0.
Proof.
  intros custom docs. refine (conj _ (conj _ (conj _ _))).
  - destruct (swagger_paths nat [] (GET "http://localhost/api-docs/spec") not_found 0
                "/api-docs/spec" eq_refl) as (_ & _ & _ & H & _).
    apply H. right. reflexivity.
  - destruct (swagger_paths nat [] (GET "http://localhost/swagger/json") not_found 0
                "/swagger/json" eq_refl) as (_ & _ & _ & _ & H & _).
    apply H; [right; reflexivity | reflexivity | reflexivity].
  - destruct (swagger_paths nat [] (GET "http://localhost/docs/json") not_found 0
                "/docs/json" eq_refl) as (_ & _ & _ & _ & _ & H & _).
    apply (H docs); reflexivity.
  - destruct (swagger_paths nat [] (GET "http://localhost/swagger/json") not_found 0
                "/swagger/json" eq_refl) as (_ & _ & _ & _ & _ & _ & H & _).
    apply (H docs); [reflexivity | discriminate | discriminate].
Defined.
